(** * felony-fitness-app: the two data-migration scripts

    A shallow embedding of
      - [scripts/fix-food-servings-sql.py]  (module [Fixer]) and
      - [OldFiles/generate_exercise_sql.py] (module [Generator]),
    and the properties of the specification that concern them.

    Python [str] values are modelled by [string]; a character is a code
    point below 256.  Exceptions are modelled by the [result] type. *)

From Stdlib Require Import ZArith Ascii Decimal DecimalZ DecimalPos.
From stdpp Require Import gmap strings list.

(** ** Exceptions *)

Inductive exn : Type :=
| OverflowError
| ValueError
| AttributeError
| KeyError (key : string)
| FileNotFoundError (path : string)
| UnicodeDecodeError
| UnicodeEncodeError
| CsvError.

Inductive result (A : Type) : Type :=
| Ok (a : A)
| Raise (e : exn).
Arguments Ok {A} a.
Arguments Raise {A} e.

Global Instance result_bind : MBind result := fun A B f x =>
  match x with
  | Ok a => f a
  | Raise e => Raise e
  end.

Fixpoint mapM {A B : Type} (f : A -> result B) (l : list A) : result (list B) :=
  match l with
  | [] => Ok []
  | x :: l' => y ← f x; ys ← mapM f l'; Ok (y :: ys)
  end.

(** ** Text: the [str] methods the scripts call *)

Module Text.

(** The double quote character, which the header of the generator
    contains, and the line break. *)
Definition dquote : string := String (ascii_of_nat 34) "".
Definition nl : string := String (ascii_of_nat 10) "".

(** [str.isspace] on one character: the code points below 256 that Python
    treats as white space, in [str.strip] and in the class [\s] alike. *)
Definition is_space (c : ascii) : bool :=
  let n := nat_of_ascii c in
  (((9 <=? n) && (n <=? 13)) || ((28 <=? n) && (n <=? 32))
  || (n =? 133) || (n =? 160))%nat.

(** The decimal digits: below 256 the class [\d] holds "0" to "9" only. *)
Definition is_digit (c : ascii) : bool :=
  let n := nat_of_ascii c in ((48 <=? n) && (n <=? 57))%nat.

Fixpoint lstrip (s : string) : string :=
  match s with
  | String c s' => if is_space c then lstrip s' else s
  | EmptyString => EmptyString
  end.

Fixpoint rstrip (s : string) : string :=
  match s with
  | String c s' =>
      match rstrip s' with
      | EmptyString => if is_space c then EmptyString else String c EmptyString
      | r => String c r
      end
  | EmptyString => EmptyString
  end.

Definition strip (s : string) : string := lstrip (rstrip s).

Definition startswith (s p : string) : bool := String.prefix p s.

Definition endswith (s p : string) : bool :=
  String.prefix (String.rev p) (String.rev s).

(** [s.replace(old, new)] for a one-character [old]. *)
Fixpoint replace (old : ascii) (new : string) (s : string) : string :=
  match s with
  | String c s' =>
      if Ascii.eqb c old then new +:+ replace old new s'
      else String c (replace old new s')
  | EmptyString => EmptyString
  end.

(** [s.lower()] on the letters A to Z. *)
Definition lower_char (c : ascii) : ascii :=
  let n := nat_of_ascii c in
  if ((65 <=? n) && (n <=? 90))%nat then ascii_of_nat (n + 32) else c.

Fixpoint lower (s : string) : string :=
  match s with
  | String c s' => String (lower_char c) (lower s')
  | EmptyString => EmptyString
  end.

(** [sep.join(l)] *)
Definition join (sep : string) (l : list string) : string := String.concat sep l.

(** The text of a literal in triple quotes, line by line. *)
Fixpoint unlines (l : list string) : string :=
  match l with
  | [] => EmptyString
  | x :: l' => x +:+ nl +:+ unlines l'
  end.

(** [all(p(c) for c in s)] and the number of occurrences of a character. *)
Fixpoint all (p : ascii -> bool) (s : string) : bool :=
  match s with
  | String c s' => p c && all p s'
  | EmptyString => true
  end.

Fixpoint count (a : ascii) (s : string) : nat :=
  match s with
  | String c s' => (if Ascii.eqb c a then 1 else 0)%nat + count a s'
  | EmptyString => 0
  end.

(** [str(n)] for an integer. *)
Fixpoint uint_digits (u : Decimal.uint) : string :=
  match u with
  | Nil => EmptyString
  | D0 u' => String "0" (uint_digits u')
  | D1 u' => String "1" (uint_digits u')
  | D2 u' => String "2" (uint_digits u')
  | D3 u' => String "3" (uint_digits u')
  | D4 u' => String "4" (uint_digits u')
  | D5 u' => String "5" (uint_digits u')
  | D6 u' => String "6" (uint_digits u')
  | D7 u' => String "7" (uint_digits u')
  | D8 u' => String "8" (uint_digits u')
  | D9 u' => String "9" (uint_digits u')
  end.

Definition str_of_int (n : Z) : string :=
  match Z.to_int n with
  | Decimal.Pos u => uint_digits u
  | Decimal.Neg u => String "-" (uint_digits u)
  end.

(** [str(b)] for a boolean. *)
Definition str_of_bool (b : bool) : string := if b then "True" else "False".

End Text.

(** ** Numbers: [float(text)] and [int(x)]

    [float] is the builtin of Python: the IEEE 754 binary64 number nearest
    to the decimal text, ties to even, and infinity from 2^1024 on.  It is
    modelled exactly, on the texts that group 3 of the pattern of the fixer
    can hold (digits, then optionally a point and digits); Python raises
    ValueError on text that is no number, and so does the model on every
    other text. *)

Module Num.

Local Open Scope Z_scope.

Inductive float : Type :=
| Finite (m e : Z)   (* the number m * 2^e, with 0 <= m <= 2^53 *)
| Infinity.

Definition digit_value (c : ascii) : Z := Z.of_nat (nat_of_ascii c) - 48.

(** The digits of [s] read after the digits already read as [acc]. *)
Fixpoint digits_value (acc : Z) (s : string) : Z :=
  match s with
  | String c s' => digits_value (10 * acc + digit_value c) s'
  | EmptyString => acc
  end.

(** The text before the first point, and the text after it if there is one. *)
Fixpoint split_point (s : string) : string * option string :=
  match s with
  | String c s' =>
      if Ascii.eqb c "."%char then (EmptyString, Some s')
      else let '(i, f) := split_point s' in (String c i, f)
  | EmptyString => (EmptyString, None)
  end.

Definition nonempty_digits (s : string) : bool :=
  negb (String.eqb s "") && Text.all Text.is_digit s.

(** [floor (log2 (n / d))] for positive [n] and [d]. *)
Definition log2_ratio (n d : Z) : Z :=
  let l := Z.log2 n - Z.log2 d in
  let reached :=
    if 0 <=? l then d * 2 ^ l <=? n else d <=? n * 2 ^ (- l) in
  if reached then l else l - 1.

(** The binary64 number nearest to [n / d], for [0 <= n] and [0 < d]. *)
Definition round_ratio (n d : Z) : float :=
  if n =? 0 then Finite 0 0 else
  let e := Z.max (log2_ratio n d - 52) (-1074) in
  let n' := if 0 <=? e then n else n * 2 ^ (- e) in
  let d' := if 0 <=? e then d * 2 ^ e else d in
  let q := n' / d' in
  let r := n' mod d' in
  let m :=
    match 2 * r ?= d' with
    | Lt => q
    | Gt => q + 1
    | Eq => if Z.even q then q else q + 1
    end in
  if 2 ^ 1024 <=? m * 2 ^ (Z.max e 0) then Infinity else Finite m e.

Definition float_of_str (s : string) : result float :=
  match split_point s with
  | (i, None) =>
      if nonempty_digits i then Ok (round_ratio (digits_value 0 i) 1)
      else Raise ValueError
  | (i, Some f) =>
      if nonempty_digits i && nonempty_digits f
      then Ok (round_ratio (digits_value 0 (i +:+ f))
                           (10 ^ Z.of_nat (String.length f)))
      else Raise ValueError
  end.

(** [int(x)]: the float truncated towards zero; infinity has no integer. *)
Definition int_of_float (x : float) : result Z :=
  match x with
  | Finite m e => Ok (if 0 <=? e then m * 2 ^ e else m / 2 ^ (- e))
  | Infinity => Raise OverflowError
  end.

End Num.

(** ** Regular expressions: the part of [re] that the fixer uses

    A backtracking matcher as [re] is one: the alternatives of a pattern
    are tried in order, a quantifier takes as much as it can and gives
    back one character at a time, and [search] tries the start positions
    from left to right.  Quantifiers are over character classes, which is
    all that the pattern of the fixer needs. *)

Module Re.

Inductive charset : Type :=
| CLit (c : ascii)     (* the character c *)
| CNot (c : ascii)     (* [^c] *)
| CDigit               (* \d *)
| CSpace.              (* \s *)

Definition in_set (k : charset) (a : ascii) : bool :=
  match k with
  | CLit c => Ascii.eqb a c
  | CNot c => negb (Ascii.eqb a c)
  | CDigit => Text.is_digit a
  | CSpace => Text.is_space a
  end.

Inductive regex : Type :=
| Chr (k : charset)             (* one character of k *)
| Star (k : charset)            (* k* *)
| Plus (k : charset)            (* k+ *)
| Opt (r : regex)               (* (?:r)? *)
| Seq (r1 r2 : regex)           (* r1 r2 *)
| Group (i : nat) (r : regex).  (* (r), the group number i *)

(** The groups matched so far, the latest first. *)
Definition captures : Type := list (nat * string).

(** What was consumed on the way from the text [s] to its suffix [s']. *)
Definition consumed (s s' : string) : string :=
  String.substring 0 (String.length s - String.length s') s.

Section Matcher.
Context {R : Type}.

(** [k*] then the continuation: the longest run first. *)
Fixpoint match_star (k : charset) (s : string) (cont : string -> option R)
  : option R :=
  match s with
  | String a s' =>
      if in_set k a then
        match match_star k s' cont with
        | Some x => Some x
        | None => cont s
        end
      else cont s
  | EmptyString => cont s
  end.

Fixpoint match_here (r : regex) (s : string) (c : captures)
    (cont : string -> captures -> option R) : option R :=
  match r with
  | Chr k =>
      match s with
      | String a s' => if in_set k a then cont s' c else None
      | EmptyString => None
      end
  | Star k => match_star k s (fun s' => cont s' c)
  | Plus k =>
      match s with
      | String a s' =>
          if in_set k a then match_star k s' (fun s'' => cont s'' c) else None
      | EmptyString => None
      end
  | Opt r' =>
      match match_here r' s c cont with
      | Some x => Some x
      | None => cont s c
      end
  | Seq r1 r2 => match_here r1 s c (fun s' c' => match_here r2 s' c' cont)
  | Group i r' =>
      match_here r' s c (fun s' c' => cont s' ((i, consumed s s') :: c'))
  end.
End Matcher.

(** [re.match]: a match at the start of the text. *)
Definition re_match (r : regex) (s : string) : option captures :=
  match_here r s [] (fun _ c => Some c).

(** [re.search]: the first position at which the pattern matches. *)
Fixpoint search (r : regex) (s : string) : option captures :=
  match re_match r s with
  | Some c => Some c
  | None =>
      match s with
      | String _ s' => search r s'
      | EmptyString => None
      end
  end.

(** [m.group(i)]: every group of the pattern of the fixer stands outside
    the optional parts, so each one is set in every match. *)
Fixpoint group (m : captures) (i : nat) : string :=
  match m with
  | (j, t) :: m' => if (i =? j)%nat then t else group m' i
  | [] => EmptyString
  end.

(** What a pattern matches, without the order of the attempts: the text
    [s] is matched by [r], which takes the groups [c] to the groups [c']. *)
Fixpoint denotes (r : regex) (s : string) (c c' : captures) : Prop :=
  match r with
  | Chr k => (exists a, s = String a "" /\ in_set k a = true) /\ c' = c
  | Star k => Text.all (in_set k) s = true /\ c' = c
  | Plus k => (s <> "" /\ Text.all (in_set k) s = true) /\ c' = c
  | Opt r' => (s = "" /\ c' = c) \/ denotes r' s c c'
  | Seq r1 r2 =>
      exists s1 s2 cm,
        s = s1 +:+ s2 /\ denotes r1 s1 c cm /\ denotes r2 s2 cm c'
  | Group i r' => exists c0, denotes r' s c c0 /\ c' = (i, s) :: c0
  end.

(** The number of occurrences of the character [a] in every text that [r]
    matches, when the pattern fixes that number. *)
Fixpoint occurrences (a : ascii) (r : regex) : option nat :=
  match r with
  | Chr (CLit c) => Some (if Ascii.eqb c a then 1 else 0)
  | Chr k | Star k | Plus k => if in_set k a then None else Some 0
  | Opt r' =>
      match occurrences a r' with
      | Some 0 => Some 0
      | _ => None
      end
  | Seq r1 r2 =>
      n1 ← occurrences a r1; n2 ← occurrences a r2; Some (n1 + n2)
  | Group _ r' => occurrences a r'
  end.

End Re.

Infix ">>" := Re.Seq (at level 62, right associativity).

(** ** The fixer: [scripts/fix-food-servings-sql.py] *)

Module Fixer.

Import Text Re.

Definition lit (c : ascii) : regex := Chr (CLit c).

(** A quoted field, whose content is the group [i]: one or more
    characters other than the quote, or (for the brand) zero or more. *)
Definition quoted_plus (i : nat) : regex :=
  lit "'" >> Group i (Plus (CNot "'")) >> lit "'".
Definition quoted_star (i : nat) : regex :=
  lit "'" >> Group i (Star (CNot "'")) >> lit "'".

(** [\d+(?:\.\d+)?] *)
Definition number : regex := Plus CDigit >> Opt (lit "." >> Plus CDigit).

(** [,\s*] *)
Definition sep : regex := lit "," >> Star CSpace.

(** The pattern of [fix_values_line]:
    ('food', 'brand', size, 'unit', cal, p, c, f, fi, s, 'cat', 'source', 'status') *)
Definition pattern : regex :=
  lit "(" >> quoted_plus 1 >> sep >> quoted_star 2 >> sep >>
  Group 3 number >> sep >> quoted_plus 4 >> sep >>
  Group 5 number >> sep >> Group 6 number >> sep >> Group 7 number >> sep >>
  Group 8 number >> sep >> Group 9 number >> sep >> Group 10 number >> sep >>
  quoted_plus 11 >> sep >> quoted_plus 12 >> sep >> quoted_plus 13 >> lit ")".

(** [int(float(text))] *)
Definition int_float (text : string) : result Z :=
  x ← Num.float_of_str text; Num.int_of_float x.

(** Combine serving_size and serving_unit into serving_description, and
    the special case of the grams. *)
Definition serving_description (serving_size serving_unit : string)
  : result string :=
  let serving_desc :=
    if negb (String.eqb serving_unit "g") then serving_size +:+ serving_unit
    else serving_size +:+ "g" in
  special ←
    (if String.eqb serving_unit "g"
     then n ← int_float serving_size; Ok (1 <? n)%Z
     else Ok false);
  if (special : bool)
  then n ← int_float serving_size; Ok (str_of_int n +:+ "g")
  else Ok serving_desc.

(** Build new line: the tuple literal of the new format. *)
Definition build_line (food_name brand serving_desc calories protein carbs fat
    fiber sugar category source status : string) : string :=
  "  ('" +:+ food_name +:+ "', '" +:+ brand +:+ "', '" +:+ serving_desc +:+
  "', " +:+ calories +:+ ", " +:+ protein +:+ ", " +:+ carbs +:+ ", " +:+
  fat +:+ ", " +:+ fiber +:+ ", " +:+ sugar +:+ ", '" +:+ category +:+
  "', '" +:+ source +:+ "', '" +:+ status +:+ "')".

(** Preserve comma or semicolon at end. *)
Definition preserve_end (line new_line : string) : string :=
  if endswith (rstrip line) "," then new_line +:+ ","
  else if endswith (rstrip line) ";" then new_line +:+ ";"
  else new_line.

Definition fix_values_line (line : string) : result string :=
  if negb (startswith (strip line) "('") then Ok line
  else
    match search pattern line with
    | None => Ok line
    | Some m =>
        let food_name := group m 1 in
        let brand := group m 2 in
        let serving_size := group m 3 in
        let serving_unit := group m 4 in
        let calories := group m 5 in
        let protein := group m 6 in
        let carbs := group m 7 in
        let fat := group m 8 in
        let fiber := group m 9 in
        let sugar := group m 10 in
        let category := group m 11 in
        let source := group m 12 in
        let status := group m 13 in
        serving_desc ← serving_description serving_size serving_unit;
        let new_line :=
          build_line food_name brand serving_desc calories protein carbs fat
            fiber sugar category source status in
        let new_line := preserve_end line new_line in
        Ok (new_line +:+ nl)
    end.

(** The loop of [main] over the lines of the file. *)
Definition fixed_lines (lines : list string) : result (list string) :=
  mapM fix_values_line lines.

End Fixer.

(** ** The generator: [OldFiles/generate_exercise_sql.py] *)

Module Generator.

Import Text.

(** A field of a row of [csv.DictReader]: a text, or [None] for a column
    that a short row does not reach. *)
Inductive pyval : Type :=
| PNone
| PStr (s : string).

(** A row: the dictionary from the column names of the header to the fields. *)
Abbreviation row := (gmap string pyval).

(** [row[key]] *)
Definition getitem (r : row) (key : string) : result pyval :=
  match r !! key with
  | Some v => Ok v
  | None => Raise (KeyError key)
  end.

(** [v.replace("'", "''")]: [None] has no method [replace]. *)
Definition escape (v : pyval) : result string :=
  match v with
  | PStr s => Ok (replace "'" "''" s)
  | PNone => Raise AttributeError
  end.

(** [{v}] in an f-string *)
Definition format (v : pyval) : string :=
  match v with
  | PStr s => s
  | PNone => "None"
  end.

(** [v != 'None'] *)
Definition differs_from_None_text (v : pyval) : bool :=
  match v with
  | PStr s => negb (String.eqb s "None")
  | PNone => true
  end.

(** The truth value of [v] in a condition: [None] and the empty text are false. *)
Definition truthy (v : pyval) : bool :=
  match v with
  | PStr s => negb (String.eqb s "")
  | PNone => false
  end.

(** [v is not None] *)
Definition is_not_None (v : pyval) : bool :=
  match v with
  | PStr _ => true
  | PNone => false
  end.

(** [row[key] if row[key] != 'None' else None] *)
Definition muscle_or_None (r : row) (key : string) : result pyval :=
  c ← getitem r key;
  if differs_from_None_text c then getitem r key else Ok PNone.

(** ["get_muscle_id('" + muscle + "')" if muscle else "NULL"] *)
Definition muscle_argument (muscle : pyval) : string :=
  if truthy muscle then "get_muscle_id('" +:+ format muscle +:+ "')"
  else "NULL".

(** [str(secondary_muscle is not None).lower()] *)
Definition is_compound (secondary_muscle : pyval) : string :=
  lower (str_of_bool (is_not_None secondary_muscle)).

(** The f-string of the INSERT statement. *)
Definition insert_text (name description instructions category primary_muscle
    secondary_argument tertiary_argument equipment difficulty compound : string)
  : string :=
  "INSERT INTO exercises (name, description, instructions, category, primary_muscle_group_id, secondary_muscle_group_id, tertiary_muscle_group_id, equipment_needed, difficulty_level, is_compound, exercise_type)"
  +:+ nl +:+
  "VALUES ('" +:+ name +:+ "', '" +:+ description +:+ "', '" +:+ instructions
  +:+ "', '" +:+ category +:+ "', " +:+ nl +:+
  "        get_muscle_id('" +:+ primary_muscle +:+ "'), " +:+ nl +:+
  "        " +:+ secondary_argument +:+ ", " +:+ nl +:+
  "        " +:+ tertiary_argument +:+ "," +:+ nl +:+
  "        '" +:+ equipment +:+ "', '" +:+ difficulty +:+ "', " +:+ nl +:+
  "        " +:+ compound +:+ ", 'strength');".

(** The body of the loop over the rows. *)
Definition insert_sql (r : row) : result string :=
  name ← getitem r "name" ≫= escape;
  description ← getitem r "description" ≫= escape;
  instructions ← getitem r "instructions" ≫= escape;
  category ← getitem r "category";
  primary_muscle ← getitem r "primary_muscle";
  secondary_muscle ← muscle_or_None r "secondary_muscle";
  tertiary_muscle ← muscle_or_None r "tertiary_muscle";
  equipment ← getitem r "equipment_needed" ≫= escape;
  difficulty ← getitem r "difficulty_level";
  Ok (insert_text name description instructions (format category)
        (format primary_muscle) (muscle_argument secondary_muscle)
        (muscle_argument tertiary_muscle) equipment (format difficulty)
        (is_compound secondary_muscle)).

Definition sql_header : string :=
  unlines [
    "-- COMPLETE 300 Exercise Insert - Generated from CSV";
    "-- This bypasses CSV upload and inserts all exercises directly";
    "";
    "DROP TABLE IF EXISTS exercises CASCADE;";
    "";
    "CREATE TABLE exercises (";
    "    id UUID PRIMARY KEY DEFAULT gen_random_uuid(),";
    "    name VARCHAR(255) NOT NULL UNIQUE,";
    "    description TEXT,";
    "    instructions TEXT,";
    "    category VARCHAR(50) NOT NULL,";
    "    primary_muscle_group_id UUID REFERENCES muscle_groups(id),";
    "    secondary_muscle_group_id UUID REFERENCES muscle_groups(id),";
    "    tertiary_muscle_group_id UUID REFERENCES muscle_groups(id),";
    "    equipment_needed TEXT,";
    "    difficulty_level VARCHAR(20) DEFAULT 'Beginner',";
    "    is_compound BOOLEAN DEFAULT false,";
    "    exercise_type VARCHAR(50) DEFAULT 'strength',";
    "    created_at TIMESTAMP WITH TIME ZONE DEFAULT NOW(),";
    "    updated_at TIMESTAMP WITH TIME ZONE DEFAULT NOW()";
    ");";
    "";
    "ALTER TABLE exercises ENABLE ROW LEVEL SECURITY;";
    "CREATE POLICY " +:+ dquote +:+
      "Allow read access to exercises for authenticated users" +:+ dquote +:+
      " ON exercises FOR SELECT TO authenticated USING (true);";
    "";
    "-- Helper function for muscle lookup";
    "CREATE OR REPLACE FUNCTION get_muscle_id(muscle_name TEXT) RETURNS UUID AS $$";
    "BEGIN";
    "    IF muscle_name IS NULL OR muscle_name = 'None' THEN RETURN NULL; END IF;";
    "    RETURN (SELECT id FROM muscle_groups WHERE name = muscle_name LIMIT 1);";
    "END;";
    "$$ LANGUAGE plpgsql;";
    "";
    "-- Insert all exercises"
  ].

Definition sql_footer : string :=
  unlines [
    "";
    "-- Clean up";
    "DROP FUNCTION get_muscle_id(TEXT);";
    "";
    "-- Create indexes and view";
    "CREATE INDEX idx_exercises_primary_muscle ON exercises(primary_muscle_group_id);";
    "CREATE INDEX idx_exercises_category ON exercises(category);";
    "CREATE INDEX idx_exercises_difficulty ON exercises(difficulty_level);";
    "";
    "CREATE OR REPLACE VIEW exercises_with_muscles AS";
    "SELECT ";
    "    e.id, e.name, e.description, e.instructions, e.category,";
    "    e.equipment_needed, e.difficulty_level, e.is_compound,";
    "    pm.name as primary_muscle, sm.name as secondary_muscle, tm.name as tertiary_muscle";
    "FROM exercises e";
    "LEFT JOIN muscle_groups pm ON pm.id = e.primary_muscle_group_id";
    "LEFT JOIN muscle_groups sm ON sm.id = e.secondary_muscle_group_id  ";
    "LEFT JOIN muscle_groups tm ON tm.id = e.tertiary_muscle_group_id;";
    "";
    "-- Results";
    "SELECT COUNT(" +:+ "*) as total_exercises,";
    "       COUNT(CASE WHEN category = 'Free Weight' THEN 1 END) as free_weight,";
    "       COUNT(CASE WHEN category = 'Machine' THEN 1 END) as machine,  ";
    "       COUNT(CASE WHEN category = 'Bodyweight' THEN 1 END) as bodyweight";
    "FROM exercises;"
  ].

(** *** The run: files and the standard output

    The files are a map from path to text.  Two things of the run depend
    on encodings: a file whose bytes are not text in UTF-8 cannot be read,
    and a text can be printed only if the encoding of the standard output
    holds its characters.  The world says which files and which texts
    these are. *)

Record world : Type := World {
  files : gmap string string;
  stdout : list string;
  garbled : gset string;       (* the files whose bytes are not UTF-8 *)
  encodes : string -> bool     (* the texts that the standard output encodes *)
}.

(** A step of the run: it changes the world, and returns or raises. *)
Definition io (A : Type) : Type := world -> world * result A.

Global Instance io_ret : MRet io := fun A a w => (w, Ok a).
Global Instance io_bind : MBind io := fun A B f x w =>
  match x w with
  | (w', Ok a) => f a w'
  | (w', Raise e) => (w', Raise e)
  end.

(** A computation that touches no file. *)
Definition pure {A : Type} (x : result A) : io A := fun w => (w, x).

(** [open(path, 'r', encoding='utf-8')] and reading the text: a missing
    file raises FileNotFoundError, and one that is not UTF-8 raises
    UnicodeDecodeError. *)
Definition read_file (path : string) : io string := fun w =>
  match files w !! path with
  | Some text =>
      if decide (path ∈ garbled w) then (w, Raise UnicodeDecodeError)
      else (w, Ok text)
  | None => (w, Raise (FileNotFoundError path))
  end.

(** [open(path, 'w', encoding='utf-8')]: the file is created, or emptied. *)
Definition open_write (path : string) : io () := fun w =>
  (World (<[path := ""]> (files w)) (stdout w) (garbled w ∖ {[path]})
         (encodes w), Ok ()).

(** [output.write(text)] on the file opened at [path] *)
Definition write (path text : string) : io () := fun w =>
  (World (<[path := default "" (files w !! path) +:+ text]> (files w))
         (stdout w) (garbled w) (encodes w), Ok ()).

Definition is_ascii (c : ascii) : bool := (nat_of_ascii c <? 128)%nat.

(** [print(text)]: the text is encoded for the standard output before
    anything of it is written.  The encodings of a standard output all
    hold the characters of ASCII; a text with other characters raises
    UnicodeEncodeError where the encoding does not hold them. *)
Definition print (text : string) : io () := fun w =>
  if all is_ascii text || encodes w text
  then (World (files w) (stdout w ++ [text]) (garbled w) (encodes w), Ok ())
  else (w, Raise UnicodeEncodeError).

Section Run.

(** [csv.DictReader] over the text of the file: the rows it yields, and
    the error that ends the iteration if there is one. *)
Variable DictReader : string -> list row * option exn.

(** The loop: a statement for each row, as far as the reader gets. *)
Definition inserts_of (text : string) : result (list string) :=
  let '(rows, error) := DictReader text in
  inserts ← mapM insert_sql rows;
  match error with
  | Some e => Raise e
  | None => Ok inserts
  end.

Definition generate_sql_from_csv : io () :=
  text ← read_file "exercises_updated_muscles.csv";
  inserts ← pure (inserts_of text);
  _ ← open_write "all_exercises_insert.sql";
  _ ← write "all_exercises_insert.sql" sql_header;
  _ ← write "all_exercises_insert.sql" (join (nl +:+ nl) inserts);
  _ ← write "all_exercises_insert.sql" sql_footer;
  print ("Generated all_exercises_insert.sql with " +:+
         str_of_int (Z.of_nat (length inserts)) +:+ " exercises").

End Run.

End Generator.


(** ** SQL tuple literals: the vocabulary of the statements about them *)

Module Sql.

Import Text.

(** The commas of a text that stand outside quoted text: they separate
    the values of a tuple literal. *)
Fixpoint separators (quoted : bool) (s : string) : nat :=
  match s with
  | String c s' =>
      if Ascii.eqb c "'" then separators (negb quoted) s'
      else if Ascii.eqb c "," && negb quoted then S (separators quoted s')
      else separators quoted s'
  | EmptyString => 0
  end.

(** The number of values of a tuple literal. *)
Definition field_count (tuple : string) : nat := S (separators false tuple).

Definition text_literal (t : string) : string := "'" +:+ t +:+ "'".

Definition tuple_literal (values : list string) : string :=
  "(" +:+ join ", " values +:+ ")".

(** A text of digits and points. *)
Definition numeral (t : string) : bool :=
  all (fun c => is_digit c || Ascii.eqb c ".") t.

End Sql.

(** ** The lines of the fixer: the vocabulary of the statements about them *)

Module FixerSpec.

Import Text Re Sql Fixer.

(** A line that [fix_values_line] rewrites: a candidate in which the
    pattern is found, with the groups [m]. *)
Definition matches (line : string) (m : captures) : Prop :=
  startswith (strip line) "('" = true /\ search pattern line = Some m.

(** The values of the tuple of the new format. *)
Definition new_values (m : captures) (serving_desc : string) : list string :=
  [ text_literal (group m 1); text_literal (group m 2);
    text_literal serving_desc;
    group m 5; group m 6; group m 7; group m 8; group m 9; group m 10;
    text_literal (group m 11); text_literal (group m 12);
    text_literal (group m 13) ].

(** What ends the tuple of the new line. *)
Definition ending (line : string) : string :=
  if endswith (rstrip line) "," then ","
  else if endswith (rstrip line) ";" then ";"
  else "".

(** The groups of a match are texts without quote, or numerals. *)
Definition groups_ok (m : captures) : Prop :=
  Forall (fun i => count "'" (group m i) = 0) [1; 2; 4; 11; 12; 13] /\
  Forall (fun i => numeral (group m i) = true) [3; 5; 6; 7; 8; 9; 10].

(** The line that replaces [line], for the groups [m] and the merged
    description [desc]. *)
Definition rewritten (line : string) (m : captures) (desc : string) : string :=
  preserve_end line
    (build_line (group m 1) (group m 2) desc (group m 5) (group m 6)
       (group m 7) (group m 8) (group m 9) (group m 10) (group m 11)
       (group m 12) (group m 13)) +:+ nl.

(** The lines of the examples of the specification. *)
Definition almonds_line : string :=
  "  ('Almonds', 'Generic', 100.0, 'g', 579, 21, 22, 50, 12, 4, 'Nuts', 'USDA', 'active')," +:+ nl.

Definition almonds_groups : captures :=
  [ (13, "active"); (12, "USDA"); (11, "Nuts"); (10, "4"); (9, "12");
    (8, "50"); (7, "22"); (6, "21"); (5, "579"); (4, "g"); (3, "100.0");
    (2, "Generic"); (1, "Almonds") ].

Definition almonds_tuple : string :=
  "('Almonds', 'Generic', '100g', 579, 21, 22, 50, 12, 4, 'Nuts', 'USDA', 'active')".

Definition banana_line : string :=
  "  ('Banana', '', 1, 'medium', 105, 1, 27, 0, 3, 14, 'Fruit', 'USDA', 'active');" +:+ nl.

(** A size of 310 digits, beyond the range of [float]. *)
Definition huge_size : string :=
  "1" +:+ String.concat "" (replicate 309 "0").

Definition huge_line : string :=
  "  ('Sand', '', " +:+ huge_size +:+
  ", 'g', 0, 0, 0, 0, 0, 0, 'Other', 'None', 'active')," +:+ nl.

End FixerSpec.

(** ** The rows of the generator: the vocabulary of the statements about them *)

Module GeneratorSpec.

Import Text Generator.

(** The exercise record of a line of the CSV file. *)
Record exercise : Type := Exercise {
  name : string;
  description : string;
  instructions : string;
  category : string;
  primary_muscle : string;
  secondary_muscle : string;
  tertiary_muscle : string;
  equipment_needed : string;
  difficulty_level : string
}.

(** The row [r] holds the nine fields of the exercise [x] (and possibly
    other columns). *)
Definition holds (r : row) (x : exercise) : Prop :=
  r !! "name" = Some (PStr (name x)) /\
  r !! "description" = Some (PStr (description x)) /\
  r !! "instructions" = Some (PStr (instructions x)) /\
  r !! "category" = Some (PStr (category x)) /\
  r !! "primary_muscle" = Some (PStr (primary_muscle x)) /\
  r !! "secondary_muscle" = Some (PStr (secondary_muscle x)) /\
  r !! "tertiary_muscle" = Some (PStr (tertiary_muscle x)) /\
  r !! "equipment_needed" = Some (PStr (equipment_needed x)) /\
  r !! "difficulty_level" = Some (PStr (difficulty_level x)).

(** The row that the reader yields for a complete line. *)
Definition row_of (x : exercise) : row :=
  {[ "name" := PStr (name x);
     "description" := PStr (description x);
     "instructions" := PStr (instructions x);
     "category" := PStr (category x);
     "primary_muscle" := PStr (primary_muscle x);
     "secondary_muscle" := PStr (secondary_muscle x);
     "tertiary_muscle" := PStr (tertiary_muscle x);
     "equipment_needed" := PStr (equipment_needed x);
     "difficulty_level" := PStr (difficulty_level x) ]}.

(** Single quotes doubled. *)
Definition doubled (s : string) : string := replace "'" "''" s.

(** A muscle of the file as the loop holds it: [None] for the text None. *)
Definition muscle (s : string) : pyval :=
  if String.eqb s "None" then PNone else PStr s.

(** The statement of a row, given what stands for the two optional muscles
    and for is_compound. *)
Definition statement (x : exercise)
    (secondary_argument tertiary_argument compound : string) : string :=
  insert_text (doubled (name x)) (doubled (description x))
    (doubled (instructions x)) (category x) (primary_muscle x)
    secondary_argument tertiary_argument (doubled (equipment_needed x))
    (difficulty_level x) compound.

(** The run fails before the output: the input file is missing or is not
    UTF-8, or the reader stops on an error, or the statement of a row
    raises. *)
Definition input_fails (DictReader : string -> list row * option exn)
    (w : world) : Prop :=
  files w !! "exercises_updated_muscles.csv" = None \/
  "exercises_updated_muscles.csv" ∈ garbled w \/
  exists text,
    files w !! "exercises_updated_muscles.csv" = Some text /\
    ((DictReader text).2 <> None \/
     exists r e, r ∈ (DictReader text).1 /\ insert_sql r = Raise e).

(** Exercises for the examples. *)
Definition curl : exercise :=
  Exercise "O'Brien's curl" "A curl" "Lift" "Free Weight" "Biceps"
           "Forearms" "None" "Dumbbell" "Beginner".

Definition plank : exercise :=
  Exercise "Plank" "A hold" "Hold" "Bodyweight" "Core"
           "None" "None" "None" "Beginner".

Definition shrug : exercise :=
  Exercise "Shrug" "A shrug" "Lift" "Free Weight" "Traps"
           "" "None" "Barbell" "Beginner".

Definition press : exercise :=
  Exercise "Press" "A press" "Push" "Men's" "Chest"
           "Triceps" "None" "Barbell" "Beginner".

(** A reader for the examples: one row for each line of the text, none of
    which has the column difficulty_level. *)
Definition short_reader (text : string) : list row * option exn :=
  ([delete "difficulty_level" (row_of curl)], None).

End GeneratorSpec.

(** ** The old format of the fixer: the vocabulary of the statements about it *)

Module FoodSpec.

Import Text Re Sql Fixer FixerSpec.



(** Digits, then possibly a point and digits. *)
Definition number_ok (t : string) : bool :=
  match Num.split_point t with
  | (i, None) => Num.nonempty_digits i
  | (i, Some f) => Num.nonempty_digits i && Num.nonempty_digits f
  end.







End FoodSpec.

(** ** Reading SQL text literals: the vocabulary of the statements about
    the escaping of the generator *)

Module SqlRead.

Import Text.

(** The content of a text literal, read from after its opening quote: two
    quotes stand for one, and a quote alone closes the literal.  The result
    holds the content and what follows the closing quote. *)
Fixpoint read_literal (s : string) : option (string * string) :=
  match s with
  | String c s' =>
      if Ascii.eqb c "'" then
        match s' with
        | String c' s'' =>
            if Ascii.eqb c' "'"
            then '(t, rest) ← read_literal s''; Some (String "'" t, rest)
            else Some (EmptyString, s')
        | EmptyString => Some (EmptyString, s')
        end
      else '(t, rest) ← read_literal s'; Some (String c t, rest)
  | EmptyString => None
  end.

(** [n] text literals in a row, separated by a comma and a space, read
    from the opening quote of the first. *)
Fixpoint read_literals (n : nat) (s : string) : option (list string * string) :=
  match n with
  | 0 => Some ([], s)
  | S n' =>
      match s with
      | String c s' =>
          if Ascii.eqb c "'" then
            '(t, rest) ← read_literal s';
            match n' with
            | 0 => Some ([t], rest)
            | S _ =>
                match rest with
                | String "," (String " " rest') =>
                    '(ts, rest'') ← read_literals n' rest'; Some (t :: ts, rest'')
                | _ => None
                end
            end
          else None
      | EmptyString => None
      end
  end.

(** The start of every statement, up to the first value. *)
Definition insert_head : string :=
  "INSERT INTO exercises (name, description, instructions, category, primary_muscle_group_id, secondary_muscle_group_id, tertiary_muscle_group_id, equipment_needed, difficulty_level, is_compound, exercise_type)"
  +:+ nl +:+ "VALUES (".

End SqlRead.

(** ** Rows of any shape: the vocabulary of the statements about them *)

Module RowSpec.

Import Text Generator.

(** The columns whose text is escaped, and those embedded as they are. *)
Definition escaped_columns : list string :=
  ["name"; "description"; "instructions"; "equipment_needed"].

Definition plain_columns : list string :=
  ["category"; "primary_muscle"; "secondary_muscle"; "tertiary_muscle";
   "difficulty_level"].

(** The row has its nine columns, and texts in the escaped ones. *)
Definition usable (r : row) : Prop :=
  Forall (fun key => exists s, r !! key = Some (PStr s)) escaped_columns /\
  Forall (fun key => is_Some (r !! key)) plain_columns.

(** A reader and a world for the examples: the file holds one exercise. *)
Definition one_row_reader (text : string) : list row * option exn :=
  ([GeneratorSpec.row_of GeneratorSpec.curl], None).

Definition csv_world : world :=
  World {[ "exercises_updated_muscles.csv" := "x" ]} [] ∅ (fun _ => true).

End RowSpec.

(** ** The statement of a row: the vocabulary of the statements about it

    The text of a statement is described here from the values that it
    lists, without the template of the generator. *)

Module StatementSpec.

Import Text Generator Sql GeneratorSpec.

(** A text with every single quote doubled, as SQL writes a quote inside
    a text literal. *)
Fixpoint escaped (s : string) : string :=
  match s with
  | String c s' =>
      if Ascii.eqb c "'" then String "'" (String "'" (escaped s'))
      else String c (escaped s')
  | EmptyString => EmptyString
  end.

(** The text of a field: a field that a short row does not reach is the
    value None, which reads None. *)
Definition field_text (v : pyval) : string :=
  match v with
  | PStr s => s
  | PNone => "None"
  end.

(** The row [r] shows the exercise [x]: it has the nine columns, with
    texts in the four columns that are escaped; in the five others a
    value None stands for the text None. *)
Definition shows (r : row) (x : exercise) : Prop :=
  r !! "name" = Some (PStr (name x)) /\
  r !! "description" = Some (PStr (description x)) /\
  r !! "instructions" = Some (PStr (instructions x)) /\
  field_text <$> r !! "category" = Some (category x) /\
  field_text <$> r !! "primary_muscle" = Some (primary_muscle x) /\
  field_text <$> r !! "secondary_muscle" = Some (secondary_muscle x) /\
  field_text <$> r !! "tertiary_muscle" = Some (tertiary_muscle x) /\
  r !! "equipment_needed" = Some (PStr (equipment_needed x)) /\
  field_text <$> r !! "difficulty_level" = Some (difficulty_level x).

(** The call of the helper function on the name of a muscle. *)
Definition lookup_call (muscle : string) : string :=
  "get_muscle_id(" +:+ text_literal muscle +:+ ")".

(** An optional muscle: NULL for the text None and for the empty text,
    and the call of the helper function otherwise. *)
Definition optional_call (muscle : string) : string :=
  if String.eqb muscle "None" || String.eqb muscle "" then "NULL"
  else lookup_call muscle.

(** The columns of the table that a statement fills. *)
Definition columns : list string :=
  [ "name"; "description"; "instructions"; "category";
    "primary_muscle_group_id"; "secondary_muscle_group_id";
    "tertiary_muscle_group_id"; "equipment_needed"; "difficulty_level";
    "is_compound"; "exercise_type" ].

(** The values of the statement of [x], in the order of the columns, given
    the values for the two optional muscles and for is_compound. *)
Definition values (x : exercise) (secondary tertiary compound : string)
  : list string :=
  [ text_literal (escaped (name x));
    text_literal (escaped (description x));
    text_literal (escaped (instructions x));
    text_literal (category x);
    lookup_call (primary_muscle x);
    secondary;
    tertiary;
    text_literal (escaped (equipment_needed x));
    text_literal (difficulty_level x);
    compound;
    text_literal "strength" ].

Definition indent : string := "        ".

(** The text of the statement that lists the eleven values [vs]: the
    columns on the first line, and the values on six lines. *)
Definition statement_text (vs : list string) : string :=
  match vs with
  | [v1; v2; v3; v4; v5; v6; v7; v8; v9; v10; v11] =>
      "INSERT INTO exercises " +:+ tuple_literal columns +:+ nl +:+
      "VALUES (" +:+ join ", " [v1; v2; v3; v4] +:+ ", " +:+ nl +:+
      indent +:+ v5 +:+ ", " +:+ nl +:+
      indent +:+ v6 +:+ ", " +:+ nl +:+
      indent +:+ v7 +:+ "," +:+ nl +:+
      indent +:+ join ", " [v8; v9] +:+ ", " +:+ nl +:+
      indent +:+ join ", " [v10; v11] +:+ ");"
  | _ => ""
  end.

(** The statements of the examples, as they are written to the file. *)
Definition curl_statement : string :=
  "INSERT INTO exercises (name, description, instructions, category, primary_muscle_group_id, secondary_muscle_group_id, tertiary_muscle_group_id, equipment_needed, difficulty_level, is_compound, exercise_type)" +:+ nl +:+
  "VALUES ('O''Brien''s curl', 'A curl', 'Lift', 'Free Weight', " +:+ nl +:+
  "        get_muscle_id('Biceps'), " +:+ nl +:+
  "        get_muscle_id('Forearms'), " +:+ nl +:+
  "        NULL," +:+ nl +:+
  "        'Dumbbell', 'Beginner', " +:+ nl +:+
  "        true, 'strength');".

Definition plank_statement : string :=
  "INSERT INTO exercises (name, description, instructions, category, primary_muscle_group_id, secondary_muscle_group_id, tertiary_muscle_group_id, equipment_needed, difficulty_level, is_compound, exercise_type)" +:+ nl +:+
  "VALUES ('Plank', 'A hold', 'Hold', 'Bodyweight', " +:+ nl +:+
  "        get_muscle_id('Core'), " +:+ nl +:+
  "        NULL, " +:+ nl +:+
  "        NULL," +:+ nl +:+
  "        'None', 'Beginner', " +:+ nl +:+
  "        false, 'strength');".

Definition shrug_statement : string :=
  "INSERT INTO exercises (name, description, instructions, category, primary_muscle_group_id, secondary_muscle_group_id, tertiary_muscle_group_id, equipment_needed, difficulty_level, is_compound, exercise_type)" +:+ nl +:+
  "VALUES ('Shrug', 'A shrug', 'Lift', 'Free Weight', " +:+ nl +:+
  "        get_muscle_id('Traps'), " +:+ nl +:+
  "        NULL, " +:+ nl +:+
  "        NULL," +:+ nl +:+
  "        'Barbell', 'Beginner', " +:+ nl +:+
  "        true, 'strength');".

(** The statement of the curl for a row that stops before the column
    difficulty_level. *)
Definition short_curl_statement : string :=
  "INSERT INTO exercises (name, description, instructions, category, primary_muscle_group_id, secondary_muscle_group_id, tertiary_muscle_group_id, equipment_needed, difficulty_level, is_compound, exercise_type)" +:+ nl +:+
  "VALUES ('O''Brien''s curl', 'A curl', 'Lift', 'Free Weight', " +:+ nl +:+
  "        get_muscle_id('Biceps'), " +:+ nl +:+
  "        get_muscle_id('Forearms'), " +:+ nl +:+
  "        NULL," +:+ nl +:+
  "        'Dumbbell', 'None', " +:+ nl +:+
  "        true, 'strength');".

End StatementSpec.

(** ** The run of the fixer: [main] of [scripts/fix-food-servings-sql.py]

    The files are those of the world of the generator.  A file opened for
    reading in text mode has its line ends translated ("universal
    newlines"); writing is modelled as on POSIX, where a line break is
    written as it is. *)

Module FixerMain.

Import Text Fixer Generator.

Definition cr : ascii := ascii_of_nat 13.
Definition lf : ascii := ascii_of_nat 10.

(** What reading gives for the content of a file: a carriage return, with
    or without a line feed after it, becomes a line feed. *)
Fixpoint universal_newlines (s : string) : string :=
  match s with
  | String c s' =>
      if Ascii.eqb c cr then
        match s' with
        | String c' s'' =>
            if Ascii.eqb c' lf then String lf (universal_newlines s'')
            else String lf (universal_newlines s')
        | EmptyString => String lf EmptyString
        end
      else String c (universal_newlines s')
  | EmptyString => EmptyString
  end.

(** [f.readlines()]: the lines of a text, each with its line feed; the
    last one has none if the text does not end with one. *)
Fixpoint readlines (s : string) : list string :=
  match s with
  | String c s' =>
      if Ascii.eqb c lf then String c EmptyString :: readlines s'
      else
        match readlines s' with
        | [] => [String c EmptyString]
        | l :: ls => String c l :: ls
        end
  | EmptyString => []
  end.

Definition input_file : string := "batch-insert-common-foods.sql".
Definition output_file : string := "batch-insert-common-foods-fixed.sql".

(** The check mark U+2705 of the first message, as its bytes in UTF-8. *)
Definition check_mark : string :=
  String (ascii_of_nat 226) (String (ascii_of_nat 156)
    (String (ascii_of_nat 133) EmptyString)).

Definition main : io () :=
  text ← read_file input_file;
  let lines := readlines (universal_newlines text) in
  fixed ← pure (fixed_lines lines);
  _ ← open_write output_file;
  _ ← write output_file (String.concat "" fixed);
  _ ← print (check_mark +:+ " Fixed SQL written to " +:+ output_file);
  print ("   Processed " +:+ str_of_int (Z.of_nat (length lines)) +:+ " lines").

End FixerMain.

(** ** Lines: the vocabulary of the statements about the run of the fixer *)

Module LinesSpec.

Import Text Re FixerMain.

(** A line that ends with its only line feed, and a line that may be the
    last of a file: its only line feed, if any, ends it, and it is not
    empty. *)
Definition terminated (l : string) : Prop :=
  exists b, count lf b = 0 /\ l = b +:+ nl.

Definition line_ok (l : string) : Prop :=
  terminated l \/ (count lf l = 0 /\ l <> "").

(** The lines of a text: all terminated, but possibly the last. *)
Fixpoint lines_ok (ls : list string) : Prop :=
  match ls with
  | [] => True
  | [l] => line_ok l
  | l :: ls' => terminated l /\ lines_ok ls'
  end.

(** The last character of every text that a pattern matches, when the
    pattern fixes it. *)
Fixpoint last_char (r : regex) : option ascii :=
  match r with
  | Chr (CLit c) => Some c
  | Seq _ r2 => last_char r2
  | Group _ r' => last_char r'
  | _ => None
  end.

(** The text that the run writes for the content of the input file. *)
Definition fixed_text (text : string) : result string :=
  fixed ← Fixer.fixed_lines (readlines (universal_newlines text));
  Ok (String.concat "" fixed).

(** A file for the examples, with the line ends of another system, and
    what the run writes for it. *)
Definition foods_text : string :=
  "-- Insert foods" +:+ String cr nl +:+
  "  ('Almonds', 'Generic', 100.0, 'g', 579, 21, 22, 50, 12, 4, 'Nuts', 'USDA', 'active')," +:+ String cr nl +:+
  "  ('Banana', '', 1, 'medium', 105, 1, 27, 0, 3, 14, 'Fruit', 'USDA', 'active');".

Definition foods_fixed : string :=
  "-- Insert foods" +:+ nl +:+
  "  ('Almonds', 'Generic', '100g', 579, 21, 22, 50, 12, 4, 'Nuts', 'USDA', 'active')," +:+ nl +:+
  "  ('Banana', '', '1medium', 105, 1, 27, 0, 3, 14, 'Fruit', 'USDA', 'active');" +:+ nl.

Definition notes_text : string :=
  "-- Insert foods" +:+ String cr nl +:+ "BEGIN;" +:+ nl +:+ "COMMIT;".

Definition foods_world : Generator.world :=
  Generator.World {[ input_file := foods_text ]} [] ∅ (fun _ => true).


End LinesSpec.

(** ** Integer sizes: the vocabulary of the statements about them *)

Module SizeSpec.

Import Text.

(** The digits of a text as a decimal number of the standard library. *)
Fixpoint uint_of_digits (s : string) : Decimal.uint :=
  match s with
  | String c s' =>
      let u := uint_of_digits s' in
      match (nat_of_ascii c - 48)%nat with
      | 0 => D0 u | 1 => D1 u | 2 => D2 u | 3 => D3 u | 4 => D4 u
      | 5 => D5 u | 6 => D6 u | 7 => D7 u | 8 => D8 u | _ => D9 u
      end
  | EmptyString => Nil
  end.

(** An integer as Python writes it: digits, without a zero in front
    unless it is the only digit. *)
Definition canonical (s : string) : bool :=
  Num.nonempty_digits s &&
  match s with
  | String "0" (String _ _) => false
  | _ => true
  end.

(** The integer that the digits before the point denote, and the number
    of digits after the point. *)
Definition integer_part (size : string) : Z :=
  Num.digits_value 0 (Num.split_point size).1.

Definition fraction_digits (size : string) : nat :=
  String.length (default "" (Num.split_point size).2).

End SizeSpec.

(** * Properties *)

(** ** Texts *)

Module TextFacts.

Import Text.

Local Arguments String.append : simpl nomatch.

Lemma app_nil_r (s : string) : s +:+ "" = s.
Proof. induction s as [|c s IH]; simpl; [done | by rewrite IH]. Qed.

Lemma app_assoc (a b c : string) : (a +:+ b) +:+ c = a +:+ b +:+ c.
Proof. induction a as [|x a IH]; simpl; [done | by rewrite IH]. Qed.

Lemma length_app (a b : string) :
  String.length (a +:+ b) = String.length a + String.length b.
Proof. induction a as [|x a IH]; simpl; [done | by rewrite IH]. Qed.

Lemma count_app (x : ascii) (a b : string) :
  count x (a +:+ b) = count x a + count x b.
Proof. induction a as [|y a IH]; simpl; [done | rewrite IH; lia]. Qed.

Lemma all_app (p : ascii -> bool) (a b : string) :
  all p (a +:+ b) = all p a && all p b.
Proof.
  induction a as [|y a IH]; simpl; [done |].
  rewrite IH. by destruct (p y).
Qed.

(** A text of characters of [p] has no character outside [p]. *)
Lemma all_count (p : ascii -> bool) (x : ascii) (s : string) :
  p x = false -> all p s = true -> count x s = 0.
Proof.
  intros Hx. induction s as [|y s IH]; simpl; [done |].
  intros [Hy Hs]%andb_prop. rewrite (IH Hs).
  destruct (Ascii.eqb_spec y x) as [->|]; [congruence | done].
Qed.

Lemma substring_app (a b : string) :
  String.substring 0 (String.length a) (a +:+ b) = a.
Proof.
  induction a as [|x a IH]; simpl.
  - by destruct b.
  - by rewrite IH.
Qed.

(** Cutting a text at its first occurrence of [x] has one result. *)
Lemma cut_unique (x : ascii) (a a' b b' : string) :
  count x a = 0 -> count x a' = 0 ->
  a +:+ String x b = a' +:+ String x b' -> a = a' /\ b = b'.
Proof.
  revert a'. induction a as [|y a IH]; intros [|y' a']; simpl.
  - intros _ _ [= ->]. done.
  - intros _ H [= <- _]. rewrite Ascii.eqb_refl in H. lia.
  - intros H _ [= -> _]. rewrite Ascii.eqb_refl in H. lia.
  - intros H H' [= -> E].
    destruct (IH a') as [-> ->]; [lia.. | done | done].
Qed.

Lemma app_inv_tail (a b c : string) : a +:+ c = b +:+ c -> a = b.
Proof.
  revert b. induction a as [|x a IH]; intros [|y b]; simpl; intros E.
  - done.
  - apply (f_equal String.length) in E. simpl in E. rewrite length_app in E. lia.
  - apply (f_equal String.length) in E. simpl in E. rewrite length_app in E. lia.
  - injection E as -> E. by rewrite (IH b E).
Qed.

End TextFacts.

(** ** The matcher *)

Module ReFacts.

Import Text TextFacts Re.

Local Arguments String.append : simpl nomatch.

Lemma consumed_app (s1 s2 : string) : consumed (s1 +:+ s2) s2 = s1.
Proof.
  unfold consumed. rewrite length_app.
  replace (String.length s1 + String.length s2 - String.length s2)
    with (String.length s1) by lia.
  apply substring_app.
Qed.

Section Soundness.
Context {R : Type}.

Lemma match_star_sound (k : charset) (s : string)
    (cont : string -> option R) (x : R) :
  match_star k s cont = Some x ->
  exists s1 s2,
    s = s1 +:+ s2 /\ all (in_set k) s1 = true /\ cont s2 = Some x.
Proof.
  induction s as [|a s IH]; simpl.
  - intros H. by exists "", "".
  - destruct (in_set k a) eqn:Ha.
    + destruct (match_star k s cont) as [y|] eqn:Hs.
      * intros [= ->]. destruct (IH eq_refl) as (s1 & s2 & -> & H1 & H2).
        exists (String a s1), s2. simpl. by rewrite Ha, H1.
      * intros H. by exists "", (String a s).
    + intros H. by exists "", (String a s).
Qed.

(** A successful attempt has matched a prefix of the text, and the
    continuation has accepted what follows it. *)
Lemma match_here_sound (r : regex) :
  forall (s : string) (c : captures)
         (cont : string -> captures -> option R) (x : R),
    match_here r s c cont = Some x ->
    exists s1 s2 c',
      s = s1 +:+ s2 /\ denotes r s1 c c' /\ cont s2 c' = Some x.
Proof.
  induction r as [k|k|k|r IH|r1 IH1 r2 IH2|i r IH]; intros s c cont x; simpl.
  - destruct s as [|a s]; [done |].
    destruct (in_set k a) eqn:Ha; [| done].
    intros H. exists (String a ""), s, c. eauto 10.
  - intros (s1 & s2 & -> & H1 & H2)%match_star_sound.
    by exists s1, s2, c.
  - destruct s as [|a s]; [done |].
    destruct (in_set k a) eqn:Ha; [| done].
    intros (s1 & s2 & -> & H1 & H2)%match_star_sound.
    exists (String a s1), s2, c. simpl. by rewrite Ha, H1.
  - destruct (match_here r s c cont) as [y|] eqn:Hr.
    + intros [= ->]. destruct (IH _ _ _ _ Hr) as (s1 & s2 & c' & ? & ? & ?).
      exists s1, s2, c'. auto.
    + intros H. exists "", s, c. auto.
  - intros (s1 & s2 & cm & -> & H1 & H2)%IH1.
    apply IH2 in H2 as (t1 & t2 & c' & -> & H2 & H3).
    exists (s1 +:+ t1), t2, c'. rewrite app_assoc. eauto 10.
  - intros (s1 & s2 & c0 & -> & H1 & H2)%IH.
    rewrite consumed_app in H2. exists s1, s2, ((i, s1) :: c0). eauto.
Qed.
End Soundness.

Lemma re_match_sound (r : regex) (s : string) (m : captures) :
  re_match r s = Some m ->
  exists mid post, s = mid +:+ post /\ denotes r mid [] m.
Proof.
  intros (s1 & s2 & c' & -> & H & [= ->])%match_here_sound. eauto.
Qed.

(** What [search] finds is a part of the text that the pattern matches. *)
Lemma search_sound (r : regex) (s : string) (m : captures) :
  search r s = Some m ->
  exists pre mid post, s = pre +:+ mid +:+ post /\ denotes r mid [] m.
Proof.
  induction s as [|a s IH]; simpl.
  - destruct (re_match r "") as [m'|] eqn:Hm; [| done].
    intros [= ->]. apply re_match_sound in Hm as (mid & post & ? & ?).
    by exists "", mid, post.
  - destruct (re_match r (String a s)) as [m'|] eqn:Hm.
    + intros [= ->]. apply re_match_sound in Hm as (mid & post & ? & ?).
      by exists "", mid, post.
    + intros (pre & mid & post & -> & H)%IH.
      by exists (String a pre), mid, post.
Qed.

Lemma occurrences_sound (a : ascii) (r : regex) :
  forall (n : nat) (s : string) (c c' : captures),
    occurrences a r = Some n -> denotes r s c c' -> count a s = n.
Proof.
  induction r as [k|k|k|r IH|r1 IH1 r2 IH2|i r IH]; intros n s c c'; simpl.
  - intros Hn [(b & -> & Hb) _]. simpl.
    destruct k as [x| x | |]; simpl in *.
    + apply Ascii.eqb_eq in Hb as ->. injection Hn as <-. lia.
    + destruct (Ascii.eqb_spec b a) as [->|]; [| by destruct (negb _); simplify_eq].
      rewrite Hb in Hn. done.
    + destruct (Ascii.eqb_spec b a) as [->|]; [rewrite Hb in Hn; done |].
      destruct (is_digit a); by simplify_eq.
    + destruct (Ascii.eqb_spec b a) as [->|]; [rewrite Hb in Hn; done |].
      destruct (is_space a); by simplify_eq.
  - destruct (in_set k a) eqn:Ha; [done |].
    intros [= <-] [H _]. by apply (all_count (in_set k)).
  - destruct (in_set k a) eqn:Ha; [done |].
    intros [= <-] [[_ H] _]. by apply (all_count (in_set k)).
  - destruct (occurrences a r) as [[|?]|] eqn:Hr; [| done..].
    intros [= <-] [[-> _] | H]; [done | by eapply IH].
  - destruct (occurrences a r1) as [n1|] eqn:H1; [| done].
    destruct (occurrences a r2) as [n2|] eqn:H2; [| done].
    intros [= <-] (s1 & s2 & cm & -> & D1 & D2).
    rewrite count_app. erewrite IH1, IH2; eauto.
  - intros Hn (c0 & H & _). by eapply IH.
Qed.

End ReFacts.

(** ** The fixer *)

Module FixerFacts.

Import Text TextFacts Re ReFacts Sql Fixer FixerSpec.

Local Arguments String.append : simpl nomatch.

Ltac split_hyps :=
  repeat match goal with
    | H : exists _, _ |- _ => destruct H as [? H]
    | H : _ /\ _ |- _ => destruct H as [? ?]
    end.

Lemma numeral_count (x : ascii) (t : string) :
  is_digit x = false -> x <> "."%char -> numeral t = true -> count x t = 0.
Proof.
  intros Hd Hp. apply all_count. rewrite Hd. simpl.
  by apply Ascii.eqb_neq.
Qed.

Lemma digits_numeral (t : string) : all is_digit t = true -> numeral t = true.
Proof.
  unfold numeral. induction t as [|c t IH]; simpl; [done |].
  intros [-> Ht]%andb_prop. simpl. auto.
Qed.

Lemma numeral_app (a b : string) :
  numeral a = true -> numeral b = true -> numeral (a +:+ b) = true.
Proof. unfold numeral. rewrite all_app. by intros -> ->. Qed.

(** The pattern of a number matches numerals, and sets no group. *)
Lemma number_numeral (t : string) (c c' : captures) :
  denotes number t c c' -> numeral t = true /\ c' = c.
Proof.
  unfold number, lit. cbn [denotes].
  intros (s1 & s2 & cm & -> & [[_ H1] ->] & [[-> ->] | H2]).
  - rewrite app_nil_r. split; [by apply digits_numeral | done].
  - destruct H2 as (p & s3 & cm' & -> & [(a & -> & Ha) ->] & [[_ H3] ->]).
    split; [| done].
    apply numeral_app; [by apply digits_numeral |].
    apply numeral_app; [| by apply digits_numeral].
    simpl in Ha. apply Ascii.eqb_eq in Ha as ->. done.
Qed.

Lemma not_quote_count (t : string) :
  all (in_set (CNot "'")) t = true -> count "'" t = 0.
Proof. by apply all_count. Qed.

(** The thirteen groups of a match of the pattern. *)
Lemma pattern_groups (mid : string) (m : captures) :
  denotes pattern mid [] m -> groups_ok m.
Proof.
  unfold pattern, quoted_plus, quoted_star, sep, lit. cbn [denotes].
  intros H. split_hyps.
  repeat match goal with
    | H : denotes number _ _ _ |- _ => apply number_numeral in H as [? ?]
    end.
  subst. unfold groups_ok.
  split; repeat constructor; simpl; auto using not_quote_count.
Qed.

(** A match of the pattern holds twelve quotes. *)
Lemma pattern_quotes (mid : string) (m : captures) :
  denotes pattern mid [] m -> count "'" mid = 12.
Proof. apply occurrences_sound. reflexivity. Qed.

(** The parts of the pattern, one by one. *)
Lemma lit_inv (a : ascii) (s : string) (c c' : captures) :
  denotes (lit a) s c c' -> s = String a "" /\ c' = c.
Proof.
  intros [(b & -> & Hb) ->]. simpl in Hb. by apply Ascii.eqb_eq in Hb as ->.
Qed.

Lemma sep_inv (s : string) (c c' : captures) :
  denotes sep s c c' ->
  exists w, s = String "," w /\ all is_space w = true /\ c' = c.
Proof.
  intros (s1 & w & cm & -> & [-> ->]%lit_inv & [H ->]). by exists w.
Qed.

Lemma quoted_plus_inv (i : nat) (s : string) (c c' : captures) :
  denotes (quoted_plus i) s c c' ->
  exists h, s = String "'" (h +:+ "'") /\ count "'" h = 0 /\ c' = (i, h) :: c.
Proof.
  intros (s1 & s2 & c1 & -> & [-> ->]%lit_inv &
          h & s3 & c2 & -> & (c3 & [[_ H] ->] & ->) & [-> ->]%lit_inv).
  exists h. auto using not_quote_count.
Qed.

Lemma quoted_star_inv (i : nat) (s : string) (c c' : captures) :
  denotes (quoted_star i) s c c' ->
  exists h, s = String "'" (h +:+ "'") /\ count "'" h = 0 /\ c' = (i, h) :: c.
Proof.
  intros (s1 & s2 & c1 & -> & [-> ->]%lit_inv &
          h & s3 & c2 & -> & (c3 & [H ->] & ->) & [-> ->]%lit_inv).
  exists h. auto using not_quote_count.
Qed.

Lemma number_start (t : string) (c c' : captures) :
  denotes number t c c' -> exists d t', t = String d t' /\ is_digit d = true.
Proof.
  intros (s1 & s2 & cm & -> & [[Hne H1] ->] & _).
  destruct s1 as [|d s1]; [done |]. simpl in H1.
  apply andb_prop in H1 as [Hd _]. by exists d, (s1 +:+ s2).
Qed.

(** How a match of the pattern begins: after the second quoted field come
    a comma, white space and a digit. *)
Lemma pattern_start (mid : string) (m : captures) :
  denotes pattern mid [] m ->
  exists h1 w1 h2 w2 d rest,
    mid = "(" +:+ String "'" (h1 +:+ String "'" (String "," (w1 +:+
            String "'" (h2 +:+ String "'" (String "," (w2 +:+ String d rest)))))) /\
    count "'" h1 = 0 /\ count "'" w1 = 0 /\ count "'" h2 = 0 /\
    all is_space w2 = true /\ is_digit d = true.
Proof.
  unfold pattern. cbn [denotes].
  intros (s0 & r0 & c0 & -> & [-> ->]%lit_inv &
          s1 & r1 & c1 & -> & (h1 & -> & Hh1 & ->)%quoted_plus_inv &
          s2 & r2 & c2 & -> & (w1 & -> & Hw1 & ->)%sep_inv &
          s3 & r3 & c3 & -> & (h2 & -> & Hh2 & ->)%quoted_star_inv &
          s4 & r4 & c4 & -> & (w2 & -> & Hw2 & ->)%sep_inv &
          s5 & r5 & c5 & -> & (c6 & (d & t & -> & Hd)%number_start & _) & _).
  exists h1, w1, h2, w2, d, (t +:+ r5). split.
  - simpl. rewrite !app_assoc. simpl. reflexivity.
  - repeat split; auto. by apply (all_count (in_set CSpace)).
Qed.

Lemma uint_digits_numeral (u : Decimal.uint) : numeral (uint_digits u) = true.
Proof. induction u; simpl; auto. Qed.

Lemma str_of_int_quotes (n : Z) : count "'" (str_of_int n) = 0.
Proof.
  unfold str_of_int. destruct (Z.to_int n) as [u|u]; simpl;
    by rewrite (numeral_count "'" (uint_digits u))
      by auto using uint_digits_numeral.
Qed.

Lemma groups_ok_text (m : captures) (i : nat) :
  groups_ok m -> i ∈ [1; 2; 4; 11; 12; 13] -> count "'" (group m i) = 0.
Proof. intros [Ht _] Hi. by apply (proj1 (Forall_forall _ _) Ht i). Qed.

Lemma groups_ok_numeral (m : captures) (i : nat) :
  groups_ok m -> i ∈ [3; 5; 6; 7; 8; 9; 10] -> numeral (group m i) = true.
Proof. intros [_ Hn] Hi. by apply (proj1 (Forall_forall _ _) Hn i). Qed.

Lemma groups_ok_quotes (m : captures) (i : nat) :
  groups_ok m -> i ∈ [1; 2; 3; 4; 5; 6; 7; 8; 9; 10; 11; 12; 13] ->
  count "'" (group m i) = 0.
Proof.
  intros Hm Hi.
  repeat (apply elem_of_cons in Hi as [->|Hi]);
    [.. | by apply elem_of_nil in Hi];
    first [ apply groups_ok_text; [done | set_solver]
          | apply numeral_count; [done.. |];
            apply groups_ok_numeral; [done | set_solver] ].
Qed.

(** The merged description has no quote: it is made of two groups, or of
    the digits of an integer and the letter g. *)
Lemma serving_description_quotes (m : captures) (desc : string) :
  groups_ok m ->
  serving_description (group m 3) (group m 4) = Ok desc ->
  count "'" desc = 0.
Proof.
  intros Hm.
  assert (H3 : count "'" (group m 3) = 0) by (apply groups_ok_quotes; [done | set_solver]).
  assert (H4 : count "'" (group m 4) = 0) by (apply groups_ok_quotes; [done | set_solver]).
  unfold serving_description.
  destruct (String.eqb_spec (group m 4) "g") as [Hg|Hg]; simpl.
  - destruct (int_float (group m 3)) as [n|e]; simpl; [| done].
    destruct (1 <? n)%Z eqn:Hn1; simpl.
    + intros [= <-]. by rewrite count_app, str_of_int_quotes.
    + intros [= <-]. rewrite count_app, H3. done.
  - intros [= <-]. rewrite count_app. lia.
Qed.

Lemma preserve_end_ending (line new_line : string) :
  preserve_end line new_line = new_line +:+ ending line.
Proof.
  unfold preserve_end, ending.
  destruct (endswith (rstrip line) ","); [done |].
  destruct (endswith (rstrip line) ";"); [done |].
  by rewrite app_nil_r.
Qed.

Lemma ending_quotes (line : string) : count "'" (ending line) = 0.
Proof.
  unfold ending. by repeat destruct (endswith _ _).
Qed.

(** A rewritten line holds twelve quotes, those around its six texts. *)
Lemma rewritten_quotes (line : string) (m : captures) (desc : string) :
  groups_ok m -> count "'" desc = 0 -> count "'" (rewritten line m desc) = 12.
Proof.
  intros Hm Hd. unfold rewritten, build_line.
  rewrite preserve_end_ending.
  repeat (rewrite !count_app; simpl).
  rewrite ending_quotes, Hd.
  rewrite !(groups_ok_quotes m) by (done || set_solver).
  done.
Qed.

Lemma rewritten_start (line : string) (m : captures) (desc : string) :
  exists rest,
    rewritten line m desc =
      "  (" +:+ String "'" (group m 1 +:+ String "'" (", " +:+
        String "'" (group m 2 +:+ String "'" (", " +:+ String "'" rest)))).
Proof.
  unfold rewritten, build_line. rewrite preserve_end_ending.
  eexists. simpl. rewrite !app_assoc. simpl. rewrite !app_assoc. simpl.
  rewrite !app_assoc. simpl. reflexivity.
Qed.

(** The pattern is not found in a rewritten line: the twelve quotes of the
    line would be those of the match, and after the second quoted field
    the line has a comma, a space and a quote where the pattern needs a
    comma, white space and a digit. *)
Lemma rewritten_unmatched (line : string) (m : captures) (desc : string) :
  groups_ok m -> count "'" desc = 0 ->
  search pattern (rewritten line m desc) = None.
Proof.
  intros Hm Hd.
  destruct (search pattern (rewritten line m desc)) as [m'|] eqn:Hs; [| done].
  exfalso.
  apply search_sound in Hs as (pre & mid & post & Hout & Hmid).
  pose proof (rewritten_quotes line m desc Hm Hd) as Hq.
  rewrite Hout, !count_app, (pattern_quotes mid m' Hmid) in Hq.
  assert (Hpre : count "'" pre = 0) by lia.
  apply pattern_start in Hmid
    as (h1 & w1 & h2 & w2 & d & rest & -> & Hh1 & Hw1 & Hh2 & Hw2 & Hd').
  destruct (rewritten_start line m desc) as [tl Hst].
  rewrite Hst in Hout. clear Hst Hq.
  assert (Hg1 : count "'" (group m 1) = 0)
    by (apply groups_ok_quotes; [done | set_solver]).
  assert (Hg2 : count "'" (group m 2) = 0)
    by (apply groups_ok_quotes; [done | set_solver]).
  simpl in Hout. rewrite !app_assoc in Hout. simpl in Hout.
  rewrite !app_assoc in Hout. simpl in Hout.
  lazymatch type of Hout with
  | String _ (String _ (String _ (String _ ?x))) =
    pre +:+ String _ (String _ ?y) =>
      assert (E : "  (" +:+ String "'" x = (pre +:+ "(") +:+ String "'" y)
        by (rewrite app_assoc; exact Hout)
  end.
  clear Hout.
  apply cut_unique in E as [_ E]; [| done | by rewrite count_app, Hpre].
  apply cut_unique in E as [_ E]; [| done..].
  injection E as E.
  apply (cut_unique "'" " " w1) in E as [_ E]; [| done..].
  rewrite !app_assoc in E. simpl in E. rewrite !app_assoc in E.
  apply cut_unique in E as [_ E]; [| done..].
  injection E as E.
  destruct w2 as [|a [|b w2]]; simpl in E, Hw2.
  - injection E as <- _. done.
  - injection E as <- <- _. done.
  - injection E as <- <- _. done.
Qed.

(** *** Counting the values of the new tuple *)

Lemma separators_quoted (t rest : string) :
  count "'" t = 0 ->
  separators true (t +:+ String "'" rest) = separators false rest.
Proof.
  induction t as [|c t IH]; simpl; [done |].
  destruct (Ascii.eqb_spec c "'") as [->|]; [lia |].
  rewrite andb_false_r. auto.
Qed.

Lemma separators_numeral (t rest : string) :
  numeral t = true -> separators false (t +:+ rest) = separators false rest.
Proof.
  unfold numeral. induction t as [|c t IH]; simpl; [done |].
  intros [Hc Ht]%andb_prop.
  destruct (Ascii.eqb_spec c "'") as [->|]; [done |].
  destruct (Ascii.eqb_spec c ",") as [->|]; [done |]. simpl. auto.
Qed.

Lemma new_values_count (m : captures) (desc : string) :
  groups_ok m -> count "'" desc = 0 ->
  field_count (tuple_literal (new_values m desc)) = 12.
Proof.
  intros Hm Hd. unfold field_count, tuple_literal, new_values, join.
  cbn [String.concat]. unfold text_literal.
  repeat first
    [ rewrite separators_quoted
        by (done || (apply groups_ok_text; [done | set_solver]))
    | rewrite separators_numeral
        by (apply groups_ok_numeral; [done | set_solver])
    | progress (rewrite ?app_assoc; simpl) ].
  done.
Qed.

(** *** The line function *)

Lemma matches_groups_ok (line : string) (m : captures) :
  matches line m -> groups_ok m.
Proof.
  intros [_ (pre & mid & post & _ & H)%search_sound].
  by apply pattern_groups in H.
Qed.

(** On a line that matches, the result is the rewritten line, once the
    merged description is there. *)
Lemma fix_values_line_matched (line : string) (m : captures) :
  matches line m ->
  fix_values_line line =
    desc ← serving_description (group m 3) (group m 4);
    Ok (rewritten line m desc).
Proof.
  intros [Hc Hs]. unfold fix_values_line. by rewrite Hc, Hs.
Qed.

Lemma rewritten_tuple (line : string) (m : captures) (desc : string) :
  rewritten line m desc =
    "  " +:+ tuple_literal (new_values m desc) +:+ ending line +:+ nl.
Proof.
  unfold rewritten, build_line, tuple_literal, new_values, join, text_literal.
  rewrite preserve_end_ending. cbn [String.concat].
  repeat (rewrite !app_assoc; simpl). reflexivity.
Qed.

(** Every line is returned as it is, or rewritten, or the call raises. *)
Lemma fix_values_line_cases (line : string) :
  fix_values_line line = Ok line \/
  (exists m, matches line m /\ exists e, fix_values_line line = Raise e) \/
  (exists m desc, matches line m /\
      serving_description (group m 3) (group m 4) = Ok desc /\
      fix_values_line line = Ok (rewritten line m desc)).
Proof.
  destruct (startswith (strip line) "('") eqn:Hc.
  - destruct (search pattern line) as [m|] eqn:Hs.
    + assert (Hm : matches line m) by done.
      pose proof (fix_values_line_matched line m Hm) as E.
      destruct (serving_description (group m 3) (group m 4)) as [desc|e] eqn:Hd.
      * right. right. by exists m, desc.
      * right. left. exists m. split; [done |]. by exists e.
    + left. unfold fix_values_line. by rewrite Hc, Hs.
  - left. unfold fix_values_line. by rewrite Hc.
Qed.

Lemma fix_values_line_not_candidate (line : string) :
  startswith (strip line) "('" = false -> fix_values_line line = Ok line.
Proof. unfold fix_values_line. by intros ->. Qed.

Lemma fix_values_line_not_found (line : string) :
  search pattern line = None -> fix_values_line line = Ok line.
Proof.
  unfold fix_values_line. intros ->.
  by destruct (startswith (strip line) "('").
Qed.

(** C4: a line whose stripped form does not start with the two characters
    of an opening parenthesis and a quote, or in which the pattern is not
    found, is returned as it is, and nothing is raised. *)
Theorem unmatched_line_unchanged (line : string) :
  startswith (strip line) "('" = false \/ search pattern line = None ->
  fix_values_line line = Ok line.
Proof.
  intros [H | H];
    [by apply fix_values_line_not_candidate
    | by apply fix_values_line_not_found].
Qed.

Lemma unmatched_line_unchanged_witness :
  fix_values_line ("-- Insert foods" +:+ nl) = Ok ("-- Insert foods" +:+ nl).
Proof. apply unmatched_line_unchanged. left. reflexivity. Defined.

(** A line that the function returns is returned again as it is; if it
    was rewritten, the pattern is not found in it. *)
Lemma fix_values_line_again (line out : string) :
  fix_values_line line = Ok out ->
  fix_values_line out = Ok out /\ (out = line \/ search pattern out = None).
Proof.
  destruct (fix_values_line_cases line)
    as [E | [(m & Hm & e & E) | (m & desc & Hm & Hd & E)]];
    rewrite E; [| done |]; intros [= <-]; [auto |].
  assert (Hu : search pattern (rewritten line m desc) = None).
  { apply matches_groups_ok in Hm as Hg.
    apply rewritten_unmatched; [done |].
    by apply (serving_description_quotes m). }
  split; [by apply fix_values_line_not_found | by right].
Qed.

(** A second pass over the lines of a first pass changes none of them. *)
Lemma fixed_lines_again (lines out : list string) :
  fixed_lines lines = Ok out -> fixed_lines out = Ok out.
Proof.
  unfold fixed_lines. revert out.
  induction lines as [|line lines IH]; intros out; simpl.
  - by intros [= <-].
  - destruct (fix_values_line line) as [y|] eqn:Hy; simpl; [| done].
    destruct (mapM fix_values_line lines) as [ys|] eqn:Hys; simpl; [| done].
    intros [= <-]. simpl.
    destruct (fix_values_line_again line y Hy) as [-> _]. simpl.
    by rewrite (IH ys eq_refl).
Qed.

(** C5: the line function is idempotent: applied to its own result it
    returns that result (and where the first call raises, so does the
    composition); a line that was rewritten is not matched by the
    pattern again. *)
Theorem fix_values_line_idempotent (line : string) :
  fix_values_line line ≫= fix_values_line = fix_values_line line /\
  match fix_values_line line with
  | Ok out => out = line \/ search pattern out = None
  | Raise _ => True
  end.
Proof.
  destruct (fix_values_line line) as [out|e] eqn:E; simpl; [| done].
  destruct (fix_values_line_again line out E) as [H1 H2]. by rewrite H1.
Qed.

(** *** The size of a match as a number *)

Lemma split_point_digits (s rest : string) :
  all is_digit s = true ->
  Num.split_point (s +:+ rest) =
    (s +:+ (Num.split_point rest).1, (Num.split_point rest).2).
Proof.
  induction s as [|c s IH]; simpl.
  - by destruct (Num.split_point rest).
  - intros [Hc Hs]%andb_prop. rewrite (IH Hs).
    destruct (Ascii.eqb_spec c ".") as [->|]; [done |]. done.
Qed.

Lemma nonempty_digits_intro (s : string) :
  s <> "" -> all is_digit s = true -> Num.nonempty_digits s = true.
Proof.
  intros Hne Hs. unfold Num.nonempty_digits. rewrite Hs.
  by destruct s.
Qed.

(** [float] accepts every text that the pattern of a number matches. *)
Lemma number_float (t : string) (c c' : captures) :
  denotes number t c c' -> exists x, Num.float_of_str t = Ok x.
Proof.
  intros (s1 & s2 & cm & -> & [[Hne H1] ->] & [[-> ->] | H2]);
    unfold Num.float_of_str.
  - rewrite split_point_digits by done. simpl. rewrite app_nil_r.
    rewrite nonempty_digits_intro by done. eauto.
  - destruct H2 as (p & s3 & cm' & -> & [-> ->]%lit_inv & [[Hne3 H3] ->]).
    rewrite split_point_digits by done. simpl. rewrite app_nil_r.
    rewrite !nonempty_digits_intro by done. simpl. eauto.
Qed.

Lemma pattern_size (mid : string) (m : captures) :
  denotes pattern mid [] m -> exists c c', denotes number (group m 3) c c'.
Proof.
  unfold pattern. cbn [denotes].
  intros (s0 & r0 & c0 & -> & _ & s1 & r1 & c1 & -> & _ &
          s2 & r2 & c2 & -> & _ & s3 & r3 & c3 & -> & _ &
          s4 & r4 & c4 & -> & _ & s5 & r5 & c5 & -> &
          (c6 & Hnum & ->) & H).
  revert Hnum. split_hyps.
  repeat match goal with
    | H : denotes (quoted_plus _) _ _ _ |- _ =>
        apply quoted_plus_inv in H as (? & ? & ? & ?)
    | H : denotes sep _ _ _ |- _ => apply sep_inv in H as (? & ? & ? & ?)
    | H : denotes (lit _) _ _ _ |- _ => apply lit_inv in H as [? ?]
    | H : denotes number _ _ _ |- _ => apply number_numeral in H as [_ ?]
    end.
  subst. simpl. eauto.
Qed.

(** [int(float(size))] returns, or raises OverflowError: on the size of a
    match it raises nothing else. *)
Lemma int_float_size (line : string) (m : captures) :
  matches line m ->
  (exists n, int_float (group m 3) = Ok n) \/
  int_float (group m 3) = Raise OverflowError.
Proof.
  intros [_ (pre & mid & post & _ & H)%search_sound].
  apply pattern_size in H as (c & c' & [x Hx]%number_float).
  unfold int_float. rewrite Hx. simpl.
  destruct x; simpl; eauto.
Qed.

(** C2 (amended): on a line that matches, when the unit is exactly g the
    call computes [int(float(size))], raising as that does, and the merged
    description is the decimal text of that integer followed by g if the
    integer is greater than 1, and the size text followed by the unit
    otherwise; when the unit is not g the merged description is the size
    text followed by the unit text.  [int(float(size))] raises nothing but
    OverflowError. *)
Theorem merged_description (line : string) (m : captures) :
  matches line m ->
  fix_values_line line =
    (if String.eqb (group m 4) "g" then
       n ← int_float (group m 3);
       Ok (rewritten line m
             (if (1 <? n)%Z then str_of_int n +:+ "g"
              else group m 3 +:+ group m 4))
     else Ok (rewritten line m (group m 3 +:+ group m 4))) /\
  ((exists n, int_float (group m 3) = Ok n) \/
   int_float (group m 3) = Raise OverflowError).
Proof.
  intros Hm. split; [| by apply (int_float_size line)].
  rewrite (fix_values_line_matched line m Hm). unfold serving_description.
  destruct (String.eqb_spec (group m 4) "g") as [Hg|Hg]; simpl; [| done].
  destruct (int_float (group m 3)) as [n|e]; simpl; [| done].
  rewrite Hg. by destruct (1 <? n)%Z.
Qed.

Lemma merged_description_witness :
  fix_values_line almonds_line = Ok (rewritten almonds_line almonds_groups "100g").
Proof.
  assert (Hm : matches almonds_line almonds_groups)
    by (split; vm_compute; reflexivity).
  destruct (merged_description almonds_line almonds_groups Hm) as [E _].
  rewrite E. vm_compute. reflexivity.
Defined.

(** C2, as stated, fails on a size beyond the range of [float]: the line
    matches, its unit is g, and the call raises instead of merging. *)
Lemma merged_description_overflow :
  (exists m, matches huge_line m /\ group m 4 = "g" /\ group m 3 = huge_size) /\
  fix_values_line huge_line = Raise OverflowError.
Proof.
  split; [| vm_compute; reflexivity].
  destruct (search pattern huge_line) as [m|] eqn:Hs; [| by vm_compute in Hs].
  exists m. split; [split; [vm_compute; reflexivity | done] |].
  vm_compute in Hs. injection Hs as <-. split; reflexivity.
Qed.

(** C8 (amended): on a line that matches and whose merged description is
    computed, the result is the tuple literal of the twelve values of the
    new format after two spaces, then a comma if the line without its
    trailing white space ends with a comma, a semicolon if it ends with a
    semicolon, nothing otherwise, then one line break. *)
Theorem rewritten_line_shape (line : string) (m : captures) (desc : string) :
  matches line m ->
  serving_description (group m 3) (group m 4) = Ok desc ->
  fix_values_line line =
    Ok ("  " +:+ tuple_literal (new_values m desc) +:+ ending line +:+ nl) /\
  length (new_values m desc) = 12 /\
  field_count (tuple_literal (new_values m desc)) = 12.
Proof.
  intros Hm Hd. split; [| split; [done |]].
  - rewrite (fix_values_line_matched line m Hm), Hd. simpl.
    by rewrite rewritten_tuple.
  - apply matches_groups_ok in Hm.
    apply new_values_count; [done |]. by apply (serving_description_quotes m).
Qed.

Lemma rewritten_line_shape_witness :
  fix_values_line almonds_line =
    Ok ("  " +:+ tuple_literal (new_values almonds_groups "100g") +:+ "," +:+ nl).
Proof.
  apply (rewritten_line_shape almonds_line almonds_groups "100g").
  - split; vm_compute; reflexivity.
  - vm_compute. reflexivity.
Defined.

(** C8, as stated, fails: the rewritten line of the specification's own
    example has twelve values, not eleven; and on a size beyond the range
    of [float] there is no rewritten line. *)

Lemma Ok_inj {A : Type} (a b : A) : Ok a = Ok b -> a = b.
Proof. by intros [= ->]. Qed.

Lemma rewritten_line_not_eleven :
  ~ (exists tuple,
       fix_values_line almonds_line = Ok ("  " +:+ tuple +:+ "," +:+ nl) /\
       field_count tuple = 11) /\
  ~ (exists out, fix_values_line huge_line = Ok out).
Proof.
  split.
  - intros (tuple & H & Hc).
    assert (E : fix_values_line almonds_line =
                Ok ("  " +:+ almonds_tuple +:+ "," +:+ nl))
      by (vm_compute; reflexivity).
    rewrite E in H. apply Ok_inj in H.
    apply (inj (String.app "  ")) in H. apply app_inv_tail in H as <-.
    vm_compute in Hc. discriminate Hc.
  - intros [out H]. assert (E : fix_values_line huge_line = Raise OverflowError) by (vm_compute; reflexivity). rewrite E in H. discriminate H.
Qed.

(** *** The examples of the specification *)

Example almonds_fixed :
  fix_values_line almonds_line =
    Ok ("  ('Almonds', 'Generic', '100g', 579, 21, 22, 50, 12, 4, 'Nuts', 'USDA', 'active')," +:+ nl).
Proof. vm_compute. reflexivity. Qed.

Example banana_fixed :
  fix_values_line banana_line =
    Ok ("  ('Banana', '', '1medium', 105, 1, 27, 0, 3, 14, 'Fruit', 'USDA', 'active');" +:+ nl).
Proof. vm_compute. reflexivity. Qed.

Example sizes_as_integers :
  int_float "100.0" = Ok 100%Z /\ int_float "1.5" = Ok 1%Z /\
  int_float "2.9999999999999999999" = Ok 3%Z /\
  int_float "9007199254740993" = Ok 9007199254740992%Z /\
  int_float huge_size = Raise OverflowError.
Proof. vm_compute. repeat split. Qed.

Example fractional_grams :
  serving_description "1.5" "g" = Ok "1.5g" /\
  serving_description "2.5" "g" = Ok "2g" /\
  serving_description "30" "g" = Ok "30g" /\
  serving_description "1" "cup" = Ok "1cup".
Proof. vm_compute. repeat split. Qed.

End FixerFacts.

(** ** The generator *)

Module GeneratorFacts.

Import Text TextFacts Generator Sql GeneratorSpec SqlRead StatementSpec.

Local Arguments String.append : simpl nomatch.

(** The statement of a row that holds an exercise. *)
Lemma insert_sql_holds (r : row) (x : exercise) :
  holds r x ->
  insert_sql r =
    Ok (statement x (muscle_argument (muscle (secondary_muscle x)))
          (muscle_argument (muscle (tertiary_muscle x)))
          (is_compound (muscle (secondary_muscle x)))).
Proof.
  intros (Hn & Hd & Hi & Hc & Hp & Hs & Ht & He & Hl).
  unfold insert_sql, muscle_or_None, getitem, muscle.
  rewrite Hn, Hd, Hi, Hc, Hp, Hs, Ht, He, Hl. simpl.
  by destruct (String.eqb (secondary_muscle x) "None"),
              (String.eqb (tertiary_muscle x) "None").
Qed.

Lemma row_of_holds (x : exercise) : holds (row_of x) x.
Proof. repeat split. Qed.

(** *** The statement of a row, from its values *)

Lemma replace_escaped (s : string) : replace "'" "''" s = escaped s.
Proof.
  induction s as [|c s IH]; simpl; [done |].
  rewrite IH. by destruct (Ascii.eqb c "'").
Qed.

Lemma escaped_app (a b : string) : escaped (a +:+ b) = escaped a +:+ escaped b.
Proof.
  induction a as [|c a IH]; simpl; [done |].
  rewrite IH. by destruct (Ascii.eqb c "'").
Qed.

Lemma format_field_text (v : pyval) : format v = field_text v.
Proof. by destruct v. Qed.

(** The template of the generator lists the values as [statement_text]
    lays them out. *)
Lemma insert_text_values (n d i c p s t e l b : string) :
  insert_text n d i c p s t e l b =
    statement_text
      [ text_literal n; text_literal d; text_literal i; text_literal c;
        lookup_call p; s; t; text_literal e; text_literal l; b;
        text_literal "strength" ].
Proof.
  unfold insert_text, statement_text, tuple_literal, columns, text_literal,
    lookup_call, indent, join.
  repeat (progress (rewrite ?app_assoc; simpl)). reflexivity.
Qed.

(** An optional muscle as the loop holds it, and what the statement has
    for it and for is_compound. *)
Lemma optional_muscle_shown (r : row) (key m : string) :
  field_text <$> r !! key = Some m ->
  exists v, muscle_or_None r key = Ok v /\
    muscle_argument v = optional_call m /\
    is_compound v = (if String.eqb m "None" then "false" else "true").
Proof.
  unfold muscle_or_None, getitem, optional_call, muscle_argument, is_compound.
  destruct (r !! key) as [[|s]|]; simpl; [| | done].
  - intros [= <-]. exists PNone. repeat split.
  - intros [= <-]. destruct (String.eqb s "None") eqn:E1; simpl.
    + exists PNone. repeat split.
    + exists (PStr s). split; [done |]. split; [| reflexivity].
      unfold lookup_call, text_literal. simpl.
      destruct (String.eqb s ""); simpl; [done |].
      repeat (progress (rewrite ?app_assoc; simpl)). reflexivity.
Qed.

Lemma plain_field_shown (r : row) (key t : string) :
  field_text <$> r !! key = Some t ->
  exists v, getitem r key = Ok v /\ format v = t.
Proof.
  unfold getitem. destruct (r !! key) as [v|]; simpl; [| done].
  intros [= <-]. exists v. by rewrite format_field_text.
Qed.

(** The statement of every row that has one. *)
Lemma insert_sql_shows (r : row) (x : exercise) :
  shows r x ->
  insert_sql r =
    Ok (statement_text
          (values x (optional_call (secondary_muscle x))
             (optional_call (tertiary_muscle x))
             (if String.eqb (secondary_muscle x) "None" then "false"
              else "true"))).
Proof.
  intros (Hn & Hd & Hi & Hc & Hp & Hs & Ht & He & Hl).
  apply plain_field_shown in Hc as (c & Hc & Ec).
  apply plain_field_shown in Hp as (p & Hp & Ep).
  apply plain_field_shown in Hl as (l & Hl & El).
  apply optional_muscle_shown in Hs as (sm & Hs & Es1 & Es2).
  apply optional_muscle_shown in Ht as (tm & Ht & Et1 & _).
  unfold insert_sql. rewrite Hc, Hp, Hs, Ht, Hl.
  unfold getitem. rewrite Hn, Hd, Hi, He. simpl.
  rewrite insert_text_values, !replace_escaped, Ec, Ep, El, Es1, Es2, Et1.
  reflexivity.
Qed.

Lemma holds_shows (r : row) (x : exercise) : holds r x -> shows r x.
Proof.
  intros (Hn & Hd & Hi & Hc & Hp & Hs & Ht & He & Hl).
  unfold shows. rewrite Hn, Hd, Hi, Hc, Hp, Hs, Ht, He, Hl. done.
Qed.

Lemma row_of_shows (x : exercise) : shows (row_of x) x.
Proof. apply holds_shows, row_of_holds. Qed.

(** Every row that has a statement shows an exercise. *)
Lemma statement_shows (r : row) (stmt : string) :
  insert_sql r = Ok stmt -> exists x, shows r x.
Proof.
  intros H. unfold insert_sql, muscle_or_None, getitem in H.
  destruct (r !! "name") as [[|v1]|] eqn:E1; simpl in H; try done.
  destruct (r !! "description") as [[|v2]|] eqn:E2; simpl in H; try done.
  destruct (r !! "instructions") as [[|v3]|] eqn:E3; simpl in H; try done.
  destruct (r !! "category") as [c|] eqn:E4; simpl in H; try done.
  destruct (r !! "primary_muscle") as [p|] eqn:E5; simpl in H; try done.
  destruct (r !! "secondary_muscle") as [sm|] eqn:E6; simpl in H; try done.
  assert (exists tm v8 d, r !! "tertiary_muscle" = Some tm /\
            r !! "equipment_needed" = Some (PStr v8) /\
            r !! "difficulty_level" = Some d) as (tm & v8 & d & E7 & E8 & E9).
  { destruct (differs_from_None_text sm); simpl in H;
      (destruct (r !! "tertiary_muscle") as [tm|] eqn:E7; simpl in H; [| done];
       destruct (differs_from_None_text tm); simpl in H;
       (destruct (r !! "equipment_needed") as [[|v8]|] eqn:E8; simpl in H; try done;
        destruct (r !! "difficulty_level") as [d|] eqn:E9; simpl in H; try done;
        eauto 10)). }
  exists (Exercise v1 v2 v3 (field_text c) (field_text p) (field_text sm)
            (field_text tm) v8 (field_text d)).
  unfold shows. cbn [name description instructions category primary_muscle
    secondary_muscle tertiary_muscle equipment_needed difficulty_level].
  rewrite E1, E2, E3, E4, E5, E6, E7, E8, E9. done.
Qed.

(** C1 (amended): for a row whose secondary muscle is a text that is
    neither None nor empty, the sixth value of the statement is the call
    of get_muscle_id on that name and the tenth, is_compound, is true;
    for a row whose secondary muscle is the text None (or is missing in
    a short row), the tenth value is false.  The statement is given in
    full, from its eleven values. *)
Theorem secondary_muscle_wrapped (r : row) (x : exercise) :
  shows r x ->
  (secondary_muscle x <> "None" -> secondary_muscle x <> "" ->
   insert_sql r =
     Ok (statement_text
           (values x (lookup_call (secondary_muscle x))
              (optional_call (tertiary_muscle x)) "true"))) /\
  (secondary_muscle x = "None" ->
   insert_sql r =
     Ok (statement_text
           (values x "NULL" (optional_call (tertiary_muscle x)) "false"))).
Proof.
  intros H. rewrite (insert_sql_shows r x H). unfold optional_call. split.
  - intros H1%String.eqb_neq H2%String.eqb_neq. by rewrite H1, H2.
  - by intros ->.
Qed.

Lemma secondary_muscle_wrapped_witness :
  insert_sql (row_of curl) = Ok curl_statement.
Proof.
  destruct (secondary_muscle_wrapped (row_of curl) curl (row_of_shows curl))
    as [H _].
  apply H; discriminate.
Defined.

(** C1, as stated, fails on a row whose secondary muscle is the empty
    text: it is not the text None, and the statement has NULL where the
    claim has the call of get_muscle_id. *)
Lemma empty_secondary_not_wrapped :
  ~ (forall (r : row) (x : exercise),
       shows r x -> secondary_muscle x <> "None" ->
       exists tertiary,
         insert_sql r =
           Ok (statement_text
                 (values x (lookup_call (secondary_muscle x)) tertiary
                    "true"))).
Proof.
  intros H.
  destruct (H (row_of shrug) shrug (row_of_shows shrug)) as [t Ht];
    [discriminate |].
  rewrite (insert_sql_shows _ _ (row_of_shows shrug)) in Ht.
  apply (f_equal (fun s => match s with Ok s => count "(" s | _ => 0 end)) in Ht.
  unfold statement_text, values, indent, join in Ht.
  rewrite !count_app in Ht. vm_compute in Ht. lia.
Qed.

(** C3, at a failing input: the category of a row is embedded as it is,
    so a quote in it stands alone in the statement, where the four
    escaped fields would have it doubled. *)
Theorem category_not_escaped :
  insert_sql (row_of press) =
    Ok (insert_text "Press" "A press" "Push" "Men's" "Chest"
          "get_muscle_id('Triceps')" "NULL" "Barbell" "Beginner" "true") /\
  insert_sql (row_of press) <>
    Ok (insert_text "Press" "A press" "Push" (doubled "Men's") "Chest"
          "get_muscle_id('Triceps')" "NULL" "Barbell" "Beginner" "true").
Proof.
  split; [vm_compute; reflexivity |].
  intros H. vm_compute in H. discriminate H.
Qed.

(** C6: for a row whose secondary and tertiary muscles are both the text
    None, the sixth and the seventh value of the statement, the two
    optional muscles, are NULL, without the call of get_muscle_id, and the
    tenth, is_compound, is false.  The statement is given in full, from
    its eleven values. *)
Theorem no_optional_muscles (r : row) (x : exercise) :
  shows r x ->
  secondary_muscle x = "None" -> tertiary_muscle x = "None" ->
  insert_sql r = Ok (statement_text (values x "NULL" "NULL" "false")).
Proof.
  intros H Hs Ht. rewrite (insert_sql_shows r x H), Hs, Ht. reflexivity.
Qed.

Lemma no_optional_muscles_witness :
  insert_sql (row_of plank) = Ok plank_statement.
Proof.
  apply (no_optional_muscles (row_of plank) plank);
    [apply row_of_shows | reflexivity | reflexivity].
Defined.

Lemma doubled_app (a b : string) : doubled (a +:+ b) = doubled a +:+ doubled b.
Proof.
  unfold doubled. induction a as [|c a IH]; simpl; [done |].
  rewrite IH. by destruct (Ascii.eqb c "'").
Qed.

(** Doubling doubles: the escaped text has twice the quotes. *)
Lemma doubled_count (s : string) : count "'" (doubled s) = 2 * count "'" s.
Proof.
  unfold doubled. induction s as [|c s IH]; simpl; [done |].
  destruct (Ascii.eqb_spec c "'") as [->|Hc]; simpl.
  - rewrite IH. lia.
  - apply Ascii.eqb_neq in Hc. rewrite Hc, IH. lia.
Qed.

(** The statement starts with the columns and the name as a text
    literal. *)
Lemma statement_text_head (x : exercise) (s t b : string) :
  exists rest,
    statement_text (values x s t b) =
      insert_head +:+ text_literal (escaped (name x)) +:+ ", " +:+ rest.
Proof.
  unfold statement_text, values, insert_head, tuple_literal, columns, join.
  eexists. repeat (progress (rewrite ?app_assoc; simpl)). reflexivity.
Qed.

(** C7: the name, the description, the instructions and the equipment of
    a row are the first, second, third and eighth value of the statement,
    as text literals with every single quote doubled; a name that
    contains O'Brien's stands in the output, after the columns and the
    opening quote, with O''Brien''s in its place. *)
Theorem text_fields_escaped (r : row) (x : exercise) :
  shows r x ->
  insert_sql r =
    Ok (statement_text
          (values x (optional_call (secondary_muscle x))
             (optional_call (tertiary_muscle x))
             (if String.eqb (secondary_muscle x) "None" then "false"
              else "true"))) /\
  (forall a b, name x = a +:+ "O'Brien's" +:+ b ->
     exists rest,
       insert_sql r =
         Ok (insert_head +:+ "'" +:+ escaped a +:+ "O''Brien''s" +:+
             escaped b +:+ "', " +:+ rest)).
Proof.
  intros H. rewrite (insert_sql_shows r x H). split; [done |].
  intros a b Hn.
  destruct (statement_text_head x (optional_call (secondary_muscle x))
              (optional_call (tertiary_muscle x))
              (if String.eqb (secondary_muscle x) "None" then "false"
               else "true")) as [rest ->].
  exists rest. rewrite Hn, !escaped_app. unfold text_literal.
  repeat (progress (rewrite ?app_assoc; simpl)). reflexivity.
Qed.

Lemma text_fields_escaped_witness :
  exists rest,
    insert_sql (row_of curl) =
      Ok (insert_head +:+ "'O''Brien''s curl', " +:+ rest).
Proof.
  destruct (text_fields_escaped (row_of curl) curl (row_of_shows curl))
    as [_ H].
  apply (H "" " curl"). reflexivity.
Defined.

(** C10: for a row whose secondary muscle is the empty text, the sixth
    value of the statement, the secondary muscle, is NULL while the tenth,
    is_compound, is true.  The statement is given in full, from its
    eleven values. *)
Theorem empty_secondary_disagrees (r : row) (x : exercise) :
  shows r x -> secondary_muscle x = "" ->
  insert_sql r =
    Ok (statement_text
          (values x "NULL" (optional_call (tertiary_muscle x)) "true")).
Proof.
  intros H Hs. rewrite (insert_sql_shows r x H), Hs. reflexivity.
Qed.

Lemma empty_secondary_disagrees_witness :
  insert_sql (row_of shrug) = Ok shrug_statement.
Proof.
  apply (empty_secondary_disagrees (row_of shrug) shrug);
    [apply row_of_shows | reflexivity].
Defined.

(** *** The run *)

(** A row without one of the nine columns has no statement. *)
Lemma insert_sql_missing_column (r : row) (key : string) :
  key ∈ ["name"; "description"; "instructions"; "category"; "primary_muscle";
         "secondary_muscle"; "tertiary_muscle"; "equipment_needed";
         "difficulty_level"] ->
  r !! key = None ->
  exists e, insert_sql r = Raise e.
Proof.
  intros Hk Hr. unfold insert_sql, muscle_or_None, getitem.
  destruct (r !! "name") as [[|v1]|] eqn:E1; simpl; eauto.
  destruct (r !! "description") as [[|v2]|] eqn:E2; simpl; eauto.
  destruct (r !! "instructions") as [[|v3]|] eqn:E3; simpl; eauto.
  destruct (r !! "category") as [c|] eqn:E4; simpl; eauto.
  destruct (r !! "primary_muscle") as [p|] eqn:E5; simpl; eauto.
  destruct (r !! "secondary_muscle") as [sm|] eqn:E6; simpl; eauto.
  destruct (differs_from_None_text sm); simpl;
    (destruct (r !! "tertiary_muscle") as [tm|] eqn:E7; simpl; eauto;
     destruct (differs_from_None_text tm); simpl;
     (destruct (r !! "equipment_needed") as [[|v8]|] eqn:E8; simpl; eauto;
      destruct (r !! "difficulty_level") as [d|] eqn:E9; simpl; eauto;
      exfalso;
      repeat (apply elem_of_cons in Hk as [->|Hk]; [congruence |]);
      by apply elem_of_nil in Hk)).
Qed.


Lemma mapM_raise {A B : Type} (f : A -> result B) (l : list A) (x : A) (e : exn) :
  x ∈ l -> f x = Raise e -> exists e', mapM f l = Raise e'.
Proof.
  induction l as [|y l IH]; intros Hx Hf; [by apply elem_of_nil in Hx |].
  apply elem_of_cons in Hx as [<- | Hx]; simpl.
  - rewrite Hf. simpl. eauto.
  - destruct (f y) as [b|e1]; simpl; [| eauto].
    destruct (IH Hx Hf) as [e' ->]. simpl. eauto.
Qed.

(** The decimal text of an integer is in ASCII. *)
Lemma uint_digits_ascii (u : Decimal.uint) :
  all is_ascii (uint_digits u) = true.
Proof. induction u; simpl; auto. Qed.

Lemma str_of_int_ascii (n : Z) : all is_ascii (str_of_int n) = true.
Proof.
  unfold str_of_int.
  destruct (Z.to_int n) as [u|u]; simpl; apply uint_digits_ascii.
Qed.

(** A text in ASCII is printed, whatever the standard output. *)
Lemma print_ascii (text : string) (w : world) :
  all is_ascii text = true ->
  print text w =
    (World (files w) (stdout w ++ [text]) (garbled w) (encodes w), Ok ()).
Proof. unfold print. by intros ->. Qed.

Lemma generated_ascii (n : Z) :
  all is_ascii ("Generated all_exercises_insert.sql with " +:+
                str_of_int n +:+ " exercises") = true.
Proof. by rewrite !all_app, str_of_int_ascii. Qed.

Section RunFacts.

Variable DictReader : string -> list row * option exn.

Lemma inserts_of_fails (text : string) :
  (DictReader text).2 <> None \/
  (exists r e, r ∈ (DictReader text).1 /\ insert_sql r = Raise e) ->
  exists e, inserts_of DictReader text = Raise e.
Proof.
  unfold inserts_of. destruct (DictReader text) as [rows error]. simpl.
  intros [He | (r & e & Hr & Hf)].
  - destruct (mapM insert_sql rows); simpl; [| eauto].
    destruct error; [eauto | done].
  - destruct (mapM_raise insert_sql rows r e Hr Hf) as [e' ->].
    simpl. eauto.
Qed.

(** A run that raises leaves the files and the output as they were: the
    message of the generator is in ASCII, and printing it cannot fail. *)
Lemma raising_run_unchanged (w w' : world) (e : exn) :
  generate_sql_from_csv DictReader w = (w', Raise e) -> w' = w.
Proof.
  unfold generate_sql_from_csv, mbind, io_bind, read_file, pure.
  destruct (files w !! "exercises_updated_muscles.csv") as [text|];
    [| by intros [= <- _]].
  destruct (decide _); [by intros [= <- _] |].
  destruct (inserts_of DictReader text) as [inserts|e'];
    [| by intros [= <- _]].
  unfold open_write, write. rewrite print_ascii by apply generated_ascii.
  discriminate.
Qed.

(** A run that returns has written the header, the statements and the
    footer to the output file. *)
Lemma returning_run_output (w w' : world) :
  generate_sql_from_csv DictReader w = (w', Ok ()) ->
  exists text inserts,
    files w !! "exercises_updated_muscles.csv" = Some text /\
    inserts_of DictReader text = Ok inserts /\
    files w' !! "all_exercises_insert.sql" =
      Some (sql_header +:+ join (nl +:+ nl) inserts +:+ sql_footer).
Proof.
  unfold generate_sql_from_csv, mbind, io_bind, read_file, pure.
  destruct (files w !! "exercises_updated_muscles.csv") as [text|];
    [| discriminate].
  destruct (decide _); [discriminate |].
  destruct (inserts_of DictReader text) as [inserts|e'] eqn:Hi;
    [| discriminate].
  unfold open_write, write. rewrite print_ascii by apply generated_ascii.
  cbn [files stdout]. intros [= <-].
  exists text, inserts. repeat split; [done |]. cbn [files].
  rewrite !lookup_insert_eq. cbn [default from_option id].
  rewrite ?app_assoc. reflexivity.
Qed.

(** C9: if the input file is missing or cannot be read as UTF-8, or the
    reader stops on an error, or the statement of a row raises (as it does
    for a row without one of the columns), the run raises and the world is
    as it was: the output file is neither created nor changed. *)
Theorem failed_run_no_output (w : world) :
  input_fails DictReader w ->
  exists e, generate_sql_from_csv DictReader w = (w, Raise e).
Proof.
  unfold generate_sql_from_csv, mbind, io_bind, read_file, pure.
  intros [-> | [Hg | (text & -> & [e He]%inserts_of_fails)]]; [by eauto | |].
  - destruct (files w !! _); [| by eauto].
    rewrite decide_True by done. eauto.
  - destruct (decide _); [by eauto |]. rewrite He. eauto.
Qed.

End RunFacts.

Lemma failed_run_no_output_witness :
  exists e,
    generate_sql_from_csv short_reader
      (World {[ "exercises_updated_muscles.csv" := "x" ]} [] ∅ (fun _ => true))
    = (World {[ "exercises_updated_muscles.csv" := "x" ]} [] ∅ (fun _ => true),
       Raise e).
Proof.
  apply failed_run_no_output. right. right. exists "x".
  split; [reflexivity |].
  right. eexists _, (KeyError "difficulty_level").
  split; [apply list_elem_of_here | vm_compute; reflexivity].
Defined.

End GeneratorFacts.

(** ** More on the fixer *)

Module FixerMore.

Import Text TextFacts Re ReFacts Sql Fixer FixerSpec FixerFacts FoodSpec.

Local Arguments String.append : simpl nomatch.

(** X1: a line with fewer than twelve single quotes is returned as it
    is: the pattern needs the quotes of six quoted fields. *)
Theorem few_quotes_unchanged (line : string) :
  count "'" line < 12 -> fix_values_line line = Ok line.
Proof.
  intros Hq. apply fix_values_line_not_found.
  destruct (search pattern line) as [m|] eqn:Hs; [| done].
  apply search_sound in Hs as (pre & mid & post & -> & Hmid).
  apply pattern_quotes in Hmid. rewrite !count_app in Hq. lia.
Qed.

Lemma few_quotes_unchanged_witness :
  fix_values_line "  ('Tofu', NULL, 100, 'g', 76, 8, 2, 5, 0, 1, 'Soy', 'USDA', 'active'),"
  = Ok "  ('Tofu', NULL, 100, 'g', 76, 8, 2, 5, 0, 1, 'Soy', 'USDA', 'active'),".
Proof. apply few_quotes_unchanged. vm_compute. lia. Defined.

(** [float] reads the size of every match. *)
Lemma float_of_size (line : string) (m : captures) :
  matches line m -> exists x, Num.float_of_str (group m 3) = Ok x.
Proof.
  intros [_ (pre & mid & post & _ & H)%search_sound].
  by apply pattern_size in H as (c & c' & H%number_float).
Qed.

(** What the line function raises, and where. *)
Lemma fix_values_line_raises (line : string) (e : exn) :
  fix_values_line line = Raise e ->
  e = OverflowError /\
  exists m, matches line m /\ group m 4 = "g" /\
            Num.float_of_str (group m 3) = Ok Num.Infinity.
Proof.
  intros H.
  destruct (fix_values_line_cases line)
    as [E | [(m & Hm & e' & E) | (m & desc & Hm & Hd & E)]];
    [congruence | | congruence].
  clear e' E. rewrite (fix_values_line_matched line m Hm) in H.
  unfold serving_description in H.
  destruct (String.eqb_spec (group m 4) "g") as [Hg|Hg]; simpl in H; [| done].
  unfold int_float in H.
  destruct (Num.float_of_str (group m 3)) as [[a b|]|e1] eqn:Hf; simpl in H.
  - by destruct (1 <? _)%Z.
  - injection H as <-. eauto.
  - destruct (float_of_size line m Hm) as [x Hx]. congruence.
Qed.

(** X2: the only exception of the line function is OverflowError, and it
    is raised only on a line that matches, whose unit is g and whose size
    is read by [float] as infinity. *)
Theorem raises_only_overflow (line : string) (e : exn) :
  fix_values_line line = Raise e ->
  e = OverflowError /\
  exists m, matches line m /\ group m 4 = "g" /\
            Num.float_of_str (group m 3) = Ok Num.Infinity.
Proof. apply fix_values_line_raises. Qed.

Lemma raises_only_overflow_witness :
  OverflowError = OverflowError /\
  exists m, matches huge_line m /\ group m 4 = "g" /\
            Num.float_of_str (group m 3) = Ok Num.Infinity.
Proof.
  apply (raises_only_overflow huge_line). vm_compute. reflexivity.
Defined.

Section Forward.
Context {R : Type}.















End Forward.













End FixerMore.

(** ** More on the generator *)

Module GeneratorMore.

Import Text TextFacts Generator Sql GeneratorSpec GeneratorFacts SqlRead
  StatementSpec RowSpec.

Local Arguments String.append : simpl nomatch.

(** Doubling and reading are inverse: the doubled text, closed by a quote
    that no quote follows, is read back as the text. *)
Lemma read_literal_doubled (s rest : string) :
  count "'" (String.substring 0 1 rest) = 0 ->
  read_literal (doubled s +:+ String "'" rest) = Some (s, rest).
Proof.
  intros Hr. unfold doubled. induction s as [|c s IH]; simpl.
  - destruct rest as [|a rest]; [done |]. simpl in Hr.
    destruct (Ascii.eqb a "'"); [| done]. by destruct rest.
  - destruct (Ascii.eqb_spec c "'") as [->|Hc]; simpl.
    + by rewrite IH.
    + apply Ascii.eqb_neq in Hc. rewrite Hc. by rewrite IH.
Qed.

(** X4: whatever characters the name, the description and the
    instructions of a row hold, the first three literals of its statement
    are read back as those three texts. *)
Theorem escaped_fields_read_back (r : row) (x : exercise) :
  holds r x ->
  exists tail rest,
    insert_sql r = Ok (insert_head +:+ tail) /\
    read_literals 3 tail =
      Some ([name x; description x; instructions x], rest).
Proof.
  intros H. rewrite (insert_sql_holds r x H).
  unfold statement, insert_text, insert_head.
  eexists _, _. split.
  - rewrite !app_assoc. reflexivity.
  - cbn [read_literals]. simpl String.append.
    rewrite read_literal_doubled by done. simpl.
    rewrite read_literal_doubled by done. simpl.
    rewrite read_literal_doubled by done. simpl. reflexivity.
Qed.

Lemma escaped_fields_read_back_witness :
  exists tail rest,
    insert_sql (row_of curl) = Ok (insert_head +:+ tail) /\
    read_literals 3 tail = Some (["O'Brien's curl"; "A curl"; "Lift"], rest).
Proof. apply (escaped_fields_read_back (row_of curl) curl). repeat split. Defined.

(** X5: a row has a statement if and only if it has the nine columns
    and texts in the four escaped ones; a missing column and a None in an
    escaped column are the only failures. *)
Theorem insert_sql_returns_iff (r : row) :
  (exists stmt, insert_sql r = Ok stmt) <-> usable r.
Proof.
  unfold usable, escaped_columns, plain_columns. split.
  - intros [stmt H]. unfold insert_sql, muscle_or_None, getitem in H.
    destruct (r !! "name") as [[|v1]|] eqn:E1; simpl in H; try done.
    destruct (r !! "description") as [[|v2]|] eqn:E2; simpl in H; try done.
    destruct (r !! "instructions") as [[|v3]|] eqn:E3; simpl in H; try done.
    destruct (r !! "category") as [c|] eqn:E4; simpl in H; try done.
    destruct (r !! "primary_muscle") as [p|] eqn:E5; simpl in H; try done.
    destruct (r !! "secondary_muscle") as [sm|] eqn:E6; simpl in H; try done.
    assert (is_Some (r !! "tertiary_muscle") /\
            (exists s, r !! "equipment_needed" = Some (PStr s)) /\
            is_Some (r !! "difficulty_level")) as (H7 & H8 & H9).
    { destruct (differs_from_None_text sm); simpl in H;
        (destruct (r !! "tertiary_muscle") as [tm|] eqn:E7; simpl in H; [| done];
         destruct (differs_from_None_text tm); simpl in H;
         (destruct (r !! "equipment_needed") as [[|v8]|] eqn:E8; simpl in H; try done;
          destruct (r !! "difficulty_level") as [d|] eqn:E9; simpl in H; try done;
          eauto)). }
    split; repeat constructor; eauto.
  - intros [He Hp].
    rewrite !Forall_cons in He. rewrite !Forall_cons in Hp.
    destruct He as ([n Hn] & [d Hd] & [i Hi] & [e He] & _).
    destruct Hp as ([c Hc] & [p Hp] & [sm Hs] & [tm Ht] & [l Hl] & _).
    unfold insert_sql, muscle_or_None, getitem.
    rewrite Hn, Hd, Hi, Hc, Hp, Hs, Ht, He, Hl. simpl.
    destruct (differs_from_None_text sm), (differs_from_None_text tm);
      simpl; eauto.
Qed.

(** In the five columns that are embedded as they are, the value None (of
    a row too short) and the text None give the same result. *)
Lemma none_value_same (r : row) (key : string) :
  key ∈ plain_columns ->
  insert_sql (<[key := PNone]> r) = insert_sql (<[key := PStr "None"]> r).
Proof.
  unfold plain_columns. intros Hk.
  repeat (apply elem_of_cons in Hk as [->|Hk]);
    [.. | by apply elem_of_nil in Hk];
    unfold insert_sql, muscle_or_None, getitem;
    rewrite ?lookup_insert_eq, ?lookup_insert_ne by done;
    reflexivity.
Qed.

(** A row cut before one of the five columns shows the exercise with the
    text None there. *)
Lemma shows_cut (r : row) (x : exercise) (key : string) :
  shows r x -> key ∈ plain_columns ->
  shows (<[key := PNone]> r)
    (Exercise (name x) (description x) (instructions x)
       (if String.eqb key "category" then "None" else category x)
       (if String.eqb key "primary_muscle" then "None" else primary_muscle x)
       (if String.eqb key "secondary_muscle" then "None"
        else secondary_muscle x)
       (if String.eqb key "tertiary_muscle" then "None" else tertiary_muscle x)
       (equipment_needed x)
       (if String.eqb key "difficulty_level" then "None"
        else difficulty_level x)).
Proof.
  intros (Hn & Hd & Hi & Hc & Hp & Hs & Ht & He & Hl) Hk.
  unfold plain_columns in Hk.
  repeat (apply elem_of_cons in Hk as [->|Hk]);
    [.. | by apply elem_of_nil in Hk];
    unfold shows; simpl;
    rewrite ?lookup_insert_eq, ?lookup_insert_ne by done;
    done.
Qed.

(** X6: a row too short to reach one of the five columns that are
    embedded as they are has the value None there, and the statement
    shows it as it shows the text None: the category and the difficulty
    as the literal 'None', the primary muscle as the call of
    get_muscle_id on None, a secondary or tertiary muscle as NULL, and
    is_compound as false when the secondary muscle is missing.  The other
    values are those of the full row. *)
Theorem none_value_as_none_text (r : row) (x : exercise) :
  shows r x ->
  let vs :=
    values x (optional_call (secondary_muscle x))
      (optional_call (tertiary_muscle x))
      (if String.eqb (secondary_muscle x) "None" then "false" else "true") in
  insert_sql (<["category" := PNone]> r) =
    Ok (statement_text (<[3 := "'None'"]> vs)) /\
  insert_sql (<["primary_muscle" := PNone]> r) =
    Ok (statement_text (<[4 := "get_muscle_id('None')"]> vs)) /\
  insert_sql (<["secondary_muscle" := PNone]> r) =
    Ok (statement_text (<[5 := "NULL"]> (<[9 := "false"]> vs))) /\
  insert_sql (<["tertiary_muscle" := PNone]> r) =
    Ok (statement_text (<[6 := "NULL"]> vs)) /\
  insert_sql (<["difficulty_level" := PNone]> r) =
    Ok (statement_text (<[8 := "'None'"]> vs)) /\
  (forall key, key ∈ plain_columns ->
     insert_sql (<[key := PNone]> r) = insert_sql (<[key := PStr "None"]> r)).
Proof.
  intros H vs. unfold vs, plain_columns.
  repeat split;
    [ rewrite (insert_sql_shows _ _ (shows_cut r x "category" H ltac:(set_solver)))
    | rewrite (insert_sql_shows _ _ (shows_cut r x "primary_muscle" H ltac:(set_solver)))
    | rewrite (insert_sql_shows _ _ (shows_cut r x "secondary_muscle" H ltac:(set_solver)))
    | rewrite (insert_sql_shows _ _ (shows_cut r x "tertiary_muscle" H ltac:(set_solver)))
    | rewrite (insert_sql_shows _ _ (shows_cut r x "difficulty_level" H ltac:(set_solver)))
    | intros key Hk; by apply none_value_same ];
    reflexivity.
Qed.

Lemma none_value_as_none_text_witness :
  insert_sql (<["difficulty_level" := PNone]> (row_of curl)) =
    Ok short_curl_statement.
Proof.
  destruct (none_value_as_none_text (row_of curl) curl (row_of_shows curl))
    as (_ & _ & _ & _ & H & _).
  exact H.
Defined.

Lemma mapM_length {A B : Type} (f : A -> result B) (l : list A) (l' : list B) :
  mapM f l = Ok l' -> length l' = length l.
Proof.
  revert l'. induction l as [|a l IH]; intros l'; simpl.
  - by intros [= <-].
  - destruct (f a); simpl; [| done].
    destruct (mapM f l) as [ys|]; simpl; [| done].
    intros [= <-]. simpl. by rewrite (IH ys).
Qed.

Section RunMore.

Variable DictReader : string -> list row * option exn.

(** X7: a run that returns has read all the rows without error; the
    output file holds the header, the statements joined by a blank line
    and the footer, whatever it held before; no other file is touched; one
    line is printed, with the number of rows. *)
Theorem successful_run (w w' : world) :
  generate_sql_from_csv DictReader w = (w', Ok ()) ->
  exists text rows inserts,
    files w !! "exercises_updated_muscles.csv" = Some text /\
    DictReader text = (rows, None) /\
    mapM insert_sql rows = Ok inserts /\
    files w' =
      <["all_exercises_insert.sql" :=
          sql_header +:+ join (nl +:+ nl) inserts +:+ sql_footer]> (files w) /\
    stdout w' =
      stdout w ++ ["Generated all_exercises_insert.sql with " +:+
                   str_of_int (Z.of_nat (length rows)) +:+ " exercises"].
Proof.
  unfold generate_sql_from_csv, mbind, io_bind, read_file, pure.
  destruct (files w !! "exercises_updated_muscles.csv") as [text|];
    [| discriminate].
  destruct (decide _); [discriminate |].
  unfold inserts_of.
  destruct (DictReader text) as [rows error] eqn:Hr.
  destruct (mapM insert_sql rows) as [inserts|e'] eqn:Hi;
    cbn [result_bind]; [| discriminate].
  destruct error as [e|]; [discriminate |].
  unfold mbind, result_bind. cbv beta iota.
  unfold open_write, write. rewrite print_ascii by apply generated_ascii.
  cbn [files stdout]. intros [= <-].
  exists text, rows, inserts. split; [done |]. split; [done |].
  split; [done |]. split; cbn [files stdout].
  - rewrite !lookup_insert_eq. cbn [default from_option id].
    rewrite !insert_insert_eq. by rewrite !app_assoc.
  - by rewrite (mapM_length _ _ _ Hi).
Qed.

End RunMore.

Lemma successful_run_witness :
  exists text rows inserts,
    files csv_world !! "exercises_updated_muscles.csv" = Some text /\
    one_row_reader text = (rows, None) /\
    mapM insert_sql rows = Ok inserts /\
    files (generate_sql_from_csv one_row_reader csv_world).1 =
      <["all_exercises_insert.sql" :=
          sql_header +:+ join (nl +:+ nl) inserts +:+ sql_footer]>
        (files csv_world) /\
    stdout (generate_sql_from_csv one_row_reader csv_world).1 =
      stdout csv_world ++
        ["Generated all_exercises_insert.sql with " +:+
         str_of_int (Z.of_nat (length rows)) +:+ " exercises"].
Proof.
  apply (successful_run one_row_reader csv_world). vm_compute. reflexivity.
Defined.

End GeneratorMore.

(** ** The run of the fixer *)

Module FixerMainFacts.

Import Text TextFacts Re ReFacts Sql Fixer FixerSpec FixerFacts Generator FixerMain LinesSpec FixerMore.

Local Arguments String.append : simpl nomatch.

(** *** Texts and their lines *)

Lemma concat_cons (l : string) (ls : list string) :
  String.concat "" (l :: ls) = l +:+ String.concat "" ls.
Proof. destruct ls; simpl; [by rewrite app_nil_r | done]. Qed.

(** The lines of a text, put together, are the text. *)
Lemma concat_readlines (s : string) : String.concat "" (readlines s) = s.
Proof.
  induction s as [|c s IH]; [done |].
  cbn [readlines]. destruct (Ascii.eqb_spec c lf) as [->|Hc].
  - rewrite concat_cons, IH. done.
  - destruct (readlines s) as [|l ls] eqn:E.
    + simpl in IH. by subst s.
    + rewrite concat_cons in IH. rewrite concat_cons. simpl. by rewrite IH.
Qed.

Lemma terminated_line_ok (l : string) : terminated l -> line_ok l.
Proof. by left. Qed.

Lemma terminated_cons (c : ascii) (l : string) :
  c <> lf -> terminated l -> terminated (String c l).
Proof.
  intros Hc (b & Hb & ->). exists (String c b). split; [| done].
  simpl. apply Ascii.eqb_neq in Hc. by rewrite Hc.
Qed.

Lemma line_ok_cons (c : ascii) (l : string) :
  c <> lf -> line_ok l -> line_ok (String c l).
Proof.
  intros Hc [Ht | [Hl Hne]]; [left; by apply terminated_cons |].
  right. split; [| done]. simpl. apply Ascii.eqb_neq in Hc. by rewrite Hc.
Qed.

Lemma lines_ok_cons (l : string) (ls : list string) :
  lines_ok (l :: ls) <->
  (ls = [] /\ line_ok l) \/ (ls <> [] /\ terminated l /\ lines_ok ls).
Proof.
  destruct ls as [|l' ls]; simpl.
  - split; [intros H; left; by split | by intros [[_ H] | [H _]]].
  - split; [intros [H1 H2]; right; by repeat split |].
    intros [[H _] | (_ & H1 & H2)]; [done | by split].
Qed.

(** The lines that are read are lines. *)
Lemma readlines_ok (s : string) : lines_ok (readlines s).
Proof.
  induction s as [|c s IH]; [done |].
  cbn [readlines]. destruct (Ascii.eqb_spec c lf) as [->|Hc].
  - apply lines_ok_cons.
    assert (Ht : terminated (String lf "")) by (by exists "").
    destruct (readlines s); [left | right]; auto using terminated_line_ok.
  - destruct (readlines s) as [|l ls] eqn:E.
    + simpl. right. split; [| done]. simpl.
      apply Ascii.eqb_neq in Hc. by rewrite Hc.
    + apply lines_ok_cons in IH. apply lines_ok_cons.
      destruct IH as [[-> Hl] | (Hne & Ht & Hls)]; [left | right];
        auto using line_ok_cons, terminated_cons.
Qed.

Lemma readlines_app_terminated (b rest : string) :
  count lf b = 0 ->
  readlines (b +:+ nl +:+ rest) = (b +:+ nl) :: readlines rest.
Proof.
  intros Hb. induction b as [|c b IH]; [done |].
  simpl in Hb. destruct (Ascii.eqb_spec c lf) as [->|Hc]; [lia |].
  change (String c b +:+ nl +:+ rest) with (String c (b +:+ nl +:+ rest)).
  cbn [readlines]. apply Ascii.eqb_neq in Hc. rewrite Hc.
  by rewrite IH.
Qed.

Lemma readlines_last (l : string) :
  count lf l = 0 -> l <> "" -> readlines l = [l].
Proof.
  induction l as [|c l IH]; [done |]. intros Hl _. simpl in Hl.
  destruct (Ascii.eqb_spec c lf) as [->|Hc]; [lia |].
  cbn [readlines]. apply Ascii.eqb_neq in Hc. rewrite Hc.
  destruct l as [|c' l]; [done |]. by rewrite IH.
Qed.

(** Lines that are put together are read again as they were. *)
Lemma readlines_concat (ls : list string) :
  lines_ok ls -> readlines (String.concat "" ls) = ls.
Proof.
  induction ls as [|l ls IH]; [done |].
  rewrite concat_cons. intros [[-> Hl] | (Hne & (b & Hb & ->) & Hls)]%lines_ok_cons.
  - simpl. rewrite app_nil_r. destruct Hl as [(b & Hb & ->) | [Hl Hne]].
    + pose proof (readlines_app_terminated b "" Hb) as E.
      rewrite app_nil_r in E. exact E.
    + by apply readlines_last.
  - rewrite app_assoc, readlines_app_terminated by done. by rewrite IH.
Qed.

(** *** The lines that are rewritten *)

Lemma last_char_sound (r : regex) (a : ascii) :
  forall (s : string) (c c' : captures),
    last_char r = Some a -> denotes r s c c' ->
    exists s', s = s' +:+ String a "".
Proof.
  induction r as [k|k|k|r IH|r1 IH1 r2 IH2|i r IH]; intros s c c'; simpl;
    try done.
  - destruct k as [x| | |]; try done.
    intros [= ->] [(b & -> & Hb) _]. simpl in Hb.
    apply Ascii.eqb_eq in Hb as ->. by exists "".
  - intros Ha (s1 & s2 & cm & -> & _ & H2).
    destruct (IH2 _ _ _ Ha H2) as [s' ->].
    exists (s1 +:+ s'). by rewrite app_assoc.
  - intros Ha (c0 & H & _). by eapply IH.
Qed.

(** The groups of a match hold no more of a character than the text
    that is matched. *)
Lemma denotes_groups_count (x : ascii) (n : nat) (r : regex) :
  forall (s : string) (c c' : captures),
    denotes r s c c' -> count x s <= n ->
    (forall i, count x (group c i) <= n) ->
    forall i, count x (group c' i) <= n.
Proof.
  induction r as [k|k|k|r IH|r1 IH1 r2 IH2|i r IH]; intros s c c'; simpl.
  - by intros [_ ->].
  - by intros [_ ->].
  - by intros [_ ->].
  - intros [[_ ->] | H]; [done | by eapply IH].
  - intros (s1 & s2 & cm & -> & H1 & H2) Hs Hc. rewrite count_app in Hs.
    eapply IH2; [done | lia |]. eapply IH1; [done | lia | done].
  - intros (c0 & H & ->) Hs Hc j. simpl.
    destruct (j =? i)%nat; [done |]. by eapply IH.
Qed.

Lemma string_last (s : string) :
  s <> "" -> exists s' z, s = s' +:+ String z "".
Proof.
  induction s as [|c s IH]; [done |]. intros _.
  destruct s as [|c' s]; [by exists "", c |].
  destruct IH as (s' & z & E); [done |].
  exists (String c s'), z. simpl. by rewrite <- E.
Qed.

Lemma app_last_inj (a b : string) (x y : ascii) :
  a +:+ String x "" = b +:+ String y "" -> a = b /\ x = y.
Proof.
  revert b. induction a as [|c a IH]; intros [|d b]; simpl.
  - by intros [= ->].
  - intros [= -> H]. by destruct b.
  - intros [= -> H]. by destruct a.
  - intros [= -> H]. by destruct (IH b H) as [-> ->].
Qed.

(** A part of a line that ends with a closing parenthesis holds no line
    feed: the line feed of a line is its last character. *)
Lemma line_part_no_lf (line pre mid post : string) :
  line_ok line -> line = pre +:+ (mid +:+ ")") +:+ post ->
  count lf mid = 0.
Proof.
  intros [(b & Hb & ->) | [Hl _]] E.
  - destruct (decide (post = "")) as [-> | Hne].
    + rewrite app_nil_r, <- app_assoc in E.
      by apply app_last_inj in E as [_ [=]].
    + destruct (string_last post Hne) as (post' & z & ->).
      rewrite <- !app_assoc in E. apply app_last_inj in E as [-> _].
      rewrite !count_app in Hb. lia.
  - subst line. rewrite !count_app in Hl. lia.
Qed.

Lemma count_cons (x c : ascii) (s : string) :
  count x (String c s) = (if Ascii.eqb c x then 1 else 0) + count x s.
Proof. done. Qed.

Lemma str_of_int_count (x : ascii) (n : Z) :
  is_digit x = false -> x <> "."%char -> x <> "-"%char ->
  count x (str_of_int n) = 0.
Proof.
  intros Hd Hp Hm. unfold str_of_int.
  destruct (Z.to_int n) as [u|u]; rewrite ?count_cons;
    rewrite (numeral_count x (uint_digits u)) by auto using uint_digits_numeral;
    [done |].
  apply not_eq_sym, Ascii.eqb_neq in Hm. by rewrite Hm.
Qed.

(** The merged description holds a character only if the size or the
    unit holds it, unless it is a digit, a minus sign or the letter g. *)
Lemma serving_description_count (x : ascii) (size unit desc : string) :
  is_digit x = false -> x <> "."%char -> x <> "-"%char -> x <> "g"%char ->
  count x size = 0 -> count x unit = 0 ->
  serving_description size unit = Ok desc -> count x desc = 0.
Proof.
  intros Hd Hp Hm Hg Hs Hu. unfold serving_description.
  assert (Hxg : count x "g" = 0).
  { rewrite count_cons. apply not_eq_sym, Ascii.eqb_neq in Hg. by rewrite Hg. }
  destruct (String.eqb unit "g"); simpl.
  - destruct (int_float size) as [n|e]; simpl; [| done].
    destruct (1 <? n)%Z; simpl; intros [= <-]; rewrite count_app.
    + by rewrite str_of_int_count.
    + by rewrite Hs.
  - intros [= <-]. rewrite count_app. lia.
Qed.

Lemma ending_count (x : ascii) (line : string) :
  x <> ","%char -> x <> ";"%char -> count x (ending line) = 0.
Proof.
  intros H1%not_eq_sym%Ascii.eqb_neq H2%not_eq_sym%Ascii.eqb_neq.
  unfold ending. repeat destruct (endswith _ _);
    rewrite ?count_cons, ?H1, ?H2; done.
Qed.

(** A line break character in a rewritten line, before its final line
    feed, would come from a group or from the merged description. *)
Lemma rewritten_body_count (x : ascii) (line : string) (m : captures)
    (desc : string) :
  x = lf \/ x = cr ->
  (forall i, count x (group m i) <= 0) -> count x desc = 0 ->
  count x (preserve_end line
             (build_line (group m 1) (group m 2) desc (group m 5) (group m 6)
                (group m 7) (group m 8) (group m 9) (group m 10)
                (group m 11) (group m 12) (group m 13))) = 0.
Proof.
  intros Hx Hg Hd. rewrite preserve_end_ending. unfold build_line.
  rewrite !count_app, Hd.
  rewrite ending_count by (destruct Hx as [-> | ->]; done).
  pose proof (Hg 1). pose proof (Hg 2). pose proof (Hg 5). pose proof (Hg 6).
  pose proof (Hg 7). pose proof (Hg 8). pose proof (Hg 9). pose proof (Hg 10).
  pose proof (Hg 11). pose proof (Hg 12). pose proof (Hg 13).
  destruct Hx as [-> | ->]; vm_compute count at 1; simpl; lia.
Qed.

(** A line that is rewritten becomes a line that ends with its only
    line feed. *)
Lemma rewritten_terminated (line : string) (m : captures) (desc : string) :
  line_ok line -> matches line m ->
  serving_description (group m 3) (group m 4) = Ok desc ->
  terminated (rewritten line m desc).
Proof.
  intros Hl [_ (pre & mid & post & E & H)%search_sound] Hd.
  destruct (last_char_sound pattern ")" mid [] m eq_refl H) as [mid' ->].
  pose proof (line_part_no_lf line pre mid' post Hl E) as Hmid.
  assert (Hg : forall i, count lf (group m i) <= 0).
  { apply (denotes_groups_count lf 0 pattern _ [] m H).
    - rewrite count_app, Hmid. done.
    - intros i. simpl. lia. }
  exists (preserve_end line
            (build_line (group m 1) (group m 2) desc (group m 5) (group m 6)
               (group m 7) (group m 8) (group m 9) (group m 10)
               (group m 11) (group m 12) (group m 13))).
  split; [| done].
  apply rewritten_body_count; [by left | done |].
  apply (serving_description_count lf (group m 3) (group m 4)); try done.
  - specialize (Hg 3). lia.
  - specialize (Hg 4). lia.
Qed.

(** A rewritten line has no carriage return if the line had none. *)
Lemma rewritten_no_cr (line : string) (m : captures) (desc : string) :
  count cr line = 0 -> matches line m ->
  serving_description (group m 3) (group m 4) = Ok desc ->
  count cr (rewritten line m desc) = 0.
Proof.
  intros Hl [_ (pre & mid & post & -> & H)%search_sound] Hd.
  rewrite !count_app in Hl.
  assert (Hg : forall i, count cr (group m i) <= 0).
  { apply (denotes_groups_count cr 0 pattern mid [] m H); [lia |].
    intros i. simpl. lia. }
  unfold rewritten. rewrite count_app.
  rewrite rewritten_body_count; [done | by right | done |].
  apply (serving_description_count cr (group m 3) (group m 4)); try done.
  - specialize (Hg 3). lia.
  - specialize (Hg 4). lia.
Qed.

(** The line function keeps lines: its result is the line, or a line that
    ends with its only line feed; and it brings in no carriage return. *)
Lemma fix_values_line_line (line out : string) :
  line_ok line -> fix_values_line line = Ok out ->
  (out = line \/ terminated out) /\ (count cr line = 0 -> count cr out = 0).
Proof.
  intros Hl Ho.
  destruct (fix_values_line_cases line)
    as [E | [(m & Hm & e & E) | (m & desc & Hm & Hd & E)]];
    rewrite E in Ho; [| done |]; injection Ho as <-; [auto |].
  split; [right; by apply rewritten_terminated |].
  intros Hc. by apply rewritten_no_cr.
Qed.

(** *** The lines of a file *)

Lemma fixed_lines_ok (ls out : list string) :
  lines_ok ls -> fixed_lines ls = Ok out ->
  lines_ok out /\ length out = length ls /\
  (Forall (fun l => count cr l = 0) ls -> Forall (fun l => count cr l = 0) out).
Proof.
  unfold fixed_lines. revert out.
  induction ls as [|l ls IH]; intros out Hls; simpl.
  - by intros [= <-].
  - destruct (fix_values_line l) as [y|] eqn:Hy; simpl; [| done].
    destruct (mapM fix_values_line ls) as [ys|] eqn:Hys; simpl; [| done].
    intros [= <-].
    assert (Hl : line_ok l).
    { apply lines_ok_cons in Hls as [[_ H] | (_ & H & _)];
        auto using terminated_line_ok. }
    destruct (fix_values_line_line l y Hl Hy) as [Hy1 Hy2].
    assert (Hrest : lines_ok ls).
    { apply lines_ok_cons in Hls as [[-> _] | (_ & _ & H)]; done. }
    destruct (IH ys Hrest eq_refl) as (Hys1 & Hys2 & Hys3).
    split; [| split].
    + apply lines_ok_cons.
      apply lines_ok_cons in Hls as [[-> H] | (Hne & Ht & _)].
      * left. simpl in Hys. injection Hys as <-. split; [done |].
        destruct Hy1 as [-> | Hy1]; auto using terminated_line_ok.
      * right. split; [| split; [| done]].
        -- destruct ls; [done |]. by destruct ys.
        -- by destruct Hy1 as [-> | Hy1].
    + simpl. by rewrite Hys2.
    + intros [Hc Hcs]%Forall_cons. apply Forall_cons. auto.
Qed.

Lemma universal_newlines_other (c : ascii) (s : string) :
  c <> cr -> universal_newlines (String c s) = String c (universal_newlines s).
Proof. intros Hc%Ascii.eqb_neq. simpl. by rewrite Hc. Qed.

Lemma universal_newlines_cr_lf (s : string) :
  universal_newlines (String cr (String lf s)) = String lf (universal_newlines s).
Proof. done. Qed.

Lemma universal_newlines_cr (c : ascii) (s : string) :
  c <> lf ->
  universal_newlines (String cr (String c s)) =
    String lf (universal_newlines (String c s)).
Proof.
  intros Hc%Ascii.eqb_neq.
  change (universal_newlines (String cr (String c s)))
    with (if Ascii.eqb c lf then String lf (universal_newlines s)
          else String lf (universal_newlines (String c s))).
  by rewrite Hc.
Qed.

Lemma universal_newlines_no_cr (s : string) :
  count cr (universal_newlines s) = 0.
Proof.
  assert (H : count cr (universal_newlines s) = 0 /\
              forall c, count cr (universal_newlines (String c s)) = 0);
    [| by destruct H].
  induction s as [|c' s [IH1 IH2]].
  - split; [done |]. intros c.
    destruct (Ascii.eqb_spec c cr) as [->|Hc]; [done |].
    rewrite universal_newlines_other, count_cons by done.
    apply Ascii.eqb_neq in Hc. by rewrite Hc.
  - split; [apply IH2 |]. intros c.
    destruct (Ascii.eqb_spec c cr) as [->|Hc].
    + destruct (Ascii.eqb_spec c' lf) as [->|Hc'].
      * by rewrite universal_newlines_cr_lf, count_cons, IH1.
      * by rewrite universal_newlines_cr, count_cons, (IH2 c') by done.
    + rewrite universal_newlines_other, count_cons, (IH2 c') by done.
      apply Ascii.eqb_neq in Hc. by rewrite Hc.
Qed.

(** A text without carriage return is read as it is. *)
Lemma universal_newlines_id (s : string) :
  count cr s = 0 -> universal_newlines s = s.
Proof.
  induction s as [|c s IH]; [done |]. rewrite count_cons.
  cbn [universal_newlines].
  destruct (Ascii.eqb c cr); [lia |]. intros H. by rewrite IH.
Qed.

Lemma count_concat (x : ascii) (ls : list string) :
  count x (String.concat "" ls) = 0 <-> Forall (fun l => count x l = 0) ls.
Proof.
  induction ls as [|l ls IH]; [by split |].
  rewrite concat_cons, count_app, Forall_cons, <- IH. lia.
Qed.

Lemma fixed_lines_unchanged (ls : list string) :
  Forall (fun l => fix_values_line l = Ok l) ls -> fixed_lines ls = Ok ls.
Proof.
  unfold fixed_lines. induction ls as [|l ls IH]; [done |].
  intros [Hl Hls]%Forall_cons. simpl. rewrite Hl. simpl. by rewrite IH.
Qed.

(** *** The run *)


(** The first message holds the check mark and is not in ASCII; the second
    is. *)
Lemma written_not_ascii :
  all is_ascii (check_mark +:+ " Fixed SQL written to " +:+ output_file)
    = false.
Proof. reflexivity. Qed.

Lemma processed_ascii (n : Z) :
  all is_ascii ("   Processed " +:+ str_of_int n +:+ " lines") = true.
Proof. by rewrite !all_app, GeneratorFacts.str_of_int_ascii. Qed.

(** The run and the text that it writes. *)
Lemma main_fixed_text (w : world) :
  main w =
    match files w !! input_file with
    | None => (w, Raise (FileNotFoundError input_file))
    | Some text =>
        if decide (input_file ∈ garbled w) then (w, Raise UnicodeDecodeError)
        else
          match fixed_text text with
          | Raise e => (w, Raise e)
          | Ok out =>
              if encodes w
                   (check_mark +:+ " Fixed SQL written to " +:+ output_file)
              then
                (World (<[output_file := out]> (files w))
                   (stdout w ++
                      [check_mark +:+ " Fixed SQL written to " +:+ output_file;
                       "   Processed " +:+
                       str_of_int (Z.of_nat
                         (length (readlines (universal_newlines text)))) +:+
                       " lines"])
                   (garbled w ∖ {[output_file]}) (encodes w),
                 Ok ())
              else
                (World (<[output_file := out]> (files w)) (stdout w)
                   (garbled w ∖ {[output_file]}) (encodes w),
                 Raise UnicodeEncodeError)
          end
    end.
Proof.
  unfold main, mbind, io_bind, read_file, pure, fixed_text.
  destruct (files w !! input_file) as [text|]; [| done].
  destruct (decide _); [done |].
  destruct (fixed_lines _) as [fixed|e]; cbn [result_bind]; [| done].
  unfold open_write, write. cbn [files stdout garbled encodes].
  rewrite lookup_insert_eq, insert_insert_eq. cbn [default from_option id].
  unfold print at 1. rewrite written_not_ascii.
  cbn [orb files stdout garbled encodes].
  destruct (encodes w _); [| done].
  rewrite GeneratorFacts.print_ascii by apply processed_ascii.
  cbn [files stdout garbled encodes]. by rewrite <- (assoc_L (++)).
Qed.



(** X9: a second pass of the fixer over the text of a first pass gives
    that text again, and a pass keeps the number of lines. *)
Theorem fixed_text_again (text out : string) :
  fixed_text text = Ok out ->
  fixed_text out = Ok out /\
  length (readlines out) = length (readlines (universal_newlines text)).
Proof.
  unfold fixed_text.
  destruct (fixed_lines (readlines (universal_newlines text)))
    as [fixed|] eqn:Hf; cbn [result_bind]; [| done].
  intros [= <-].
  destruct (fixed_lines_ok _ _ (readlines_ok _) Hf) as (Hok & Hlen & Hcr).
  assert (Hn : count cr (String.concat "" fixed) = 0).
  { apply count_concat, Hcr, count_concat.
    rewrite concat_readlines. apply universal_newlines_no_cr. }
  rewrite (universal_newlines_id _ Hn), (readlines_concat _ Hok).
  by rewrite (fixed_lines_again _ _ Hf).
Qed.

Lemma fixed_text_again_witness :
  fixed_text foods_fixed = Ok foods_fixed /\
  length (readlines foods_fixed) =
    length (readlines (universal_newlines foods_text)).
Proof. apply fixed_text_again. vm_compute. reflexivity. Defined.

(** X10: a run of the fixer that returns has written to the output file
    the lines of the input file, each one fixed, whatever the file held
    before; no other file is changed; and the two lines printed report
    the output file and the number of lines of the input, which is also
    the number of lines of the output. *)
Theorem successful_main (w w' : world) :
  main w = (w', Ok ()) ->
  exists text fixed,
    files w !! input_file = Some text /\
    fixed_lines (readlines (universal_newlines text)) = Ok fixed /\
    files w' = <[output_file := String.concat "" fixed]> (files w) /\
    readlines (String.concat "" fixed) = fixed /\
    stdout w' =
      stdout w ++
        [check_mark +:+ " Fixed SQL written to " +:+ output_file;
         "   Processed " +:+ str_of_int (Z.of_nat (length fixed)) +:+ " lines"].
Proof.
  rewrite main_fixed_text.
  destruct (files w !! input_file) as [text|]; [| done].
  destruct (decide _); [done |].
  unfold fixed_text.
  destruct (fixed_lines _) as [fixed|e'] eqn:Hf; cbn [mbind result_bind];
    [| done].
  destruct (encodes w _); [| done].
  intros [= <-]. exists text, fixed.
  destruct (fixed_lines_ok _ _ (readlines_ok _) Hf) as (Hok & Hlen & _).
  split; [done |]. split; [done |]. split; [done |].
  split; [by apply readlines_concat |]. cbn [stdout]. by rewrite Hlen.
Qed.

Lemma successful_main_witness :
  exists text fixed,
    files foods_world !! input_file = Some text /\
    fixed_lines (readlines (universal_newlines text)) = Ok fixed /\
    files (main foods_world).1 =
      <[output_file := String.concat "" fixed]> (files foods_world) /\
    readlines (String.concat "" fixed) = fixed /\
    stdout (main foods_world).1 =
      stdout foods_world ++
        [check_mark +:+ " Fixed SQL written to " +:+ output_file;
         "   Processed " +:+ str_of_int (Z.of_nat (length fixed)) +:+ " lines"].
Proof. apply (successful_main foods_world). vm_compute. reflexivity. Defined.

(** X11: a text none of whose lines is a candidate is copied, with its
    line ends turned into line feeds. *)
Theorem plain_text_copied (text : string) :
  Forall (fun l => startswith (strip l) "('" = false)
         (readlines (universal_newlines text)) ->
  fixed_text text = Ok (universal_newlines text).
Proof.
  intros H. unfold fixed_text.
  rewrite fixed_lines_unchanged.
  - cbn [result_bind mbind]. by rewrite concat_readlines.
  - eapply Forall_impl; [exact H |]. intros l Hl.
    by apply fix_values_line_not_candidate.
Qed.

Lemma plain_text_copied_witness :
  fixed_text notes_text = Ok (universal_newlines notes_text).
Proof. apply plain_text_copied. vm_compute. repeat constructor. Defined.

End FixerMainFacts.

(** ** The size of a serving as a number *)

Module SizeFacts.

Import Text TextFacts Re ReFacts Sql Fixer FixerSpec FixerFacts SizeSpec FoodSpec FixerMore.

Local Arguments String.append : simpl nomatch.

Local Open Scope Z_scope.

(** *** Digits and numbers *)

Lemma is_digit_cases (c : ascii) :
  is_digit c = true ->
  c = "0"%char \/ c = "1"%char \/ c = "2"%char \/ c = "3"%char \/
  c = "4"%char \/ c = "5"%char \/ c = "6"%char \/ c = "7"%char \/
  c = "8"%char \/ c = "9"%char.
Proof.
  destruct c as [[] [] [] [] [] [] [] []]; intros H; try discriminate H;
    auto 10.
Qed.

Ltac digit_arith :=
  unfold Num.digit_value;
  repeat match goal with
    | |- context [Z.of_nat (nat_of_ascii ?c)] =>
        let v := eval vm_compute in (Z.of_nat (nat_of_ascii c)) in
        change (Z.of_nat (nat_of_ascii c)) with v
    end;
  rewrite ?Pos2Z.inj_add, ?Pos2Z.inj_mul; simpl Z.of_N; lia.

Lemma uint_digits_of_digits (s : string) :
  all is_digit s = true -> uint_digits (uint_of_digits s) = s.
Proof.
  induction s as [|c s IH]; [done |]. simpl.
  intros [Hc Hs]%andb_prop. specialize (IH Hs).
  destruct (is_digit_cases c Hc) as [-> | [-> | [-> | [-> | [-> | [-> | [-> | [-> | [-> | ->]]]]]]]]];
    simpl; by rewrite IH.
Qed.

Lemma digits_value_acc (u : Decimal.uint) (acc : positive) :
  Num.digits_value (Z.pos acc) (uint_digits u) = Z.pos (Pos.of_uint_acc u acc).
Proof.
  revert acc. induction u; intros acc; cbn [uint_digits Num.digits_value Pos.of_uint_acc];
    [done | ..]; rewrite <- IHu; f_equal; digit_arith.
Qed.

(** The digits that are written for a number of the standard library
    denote that number. *)
Lemma digits_value_uint (u : Decimal.uint) :
  Num.digits_value 0 (uint_digits u) = Z.of_uint u.
Proof.
  unfold Z.of_uint.
  induction u; cbn [uint_digits Num.digits_value Pos.of_uint]; [done | ..];
    [replace (10 * 0 + Num.digit_value "0") with 0 by digit_arith; done | ..].
  all: cbn [Z.of_N]. all: rewrite <- digits_value_acc; f_equal; digit_arith.
Qed.

(** Reading what [str] writes gives the integer back. *)
Lemma digits_value_str_of_int (n : Z) :
  0 <= n -> Num.digits_value 0 (str_of_int n) = n.
Proof.
  intros Hn. unfold str_of_int.
  pose proof (DecimalZ.of_to n) as E.
  destruct (Z.to_int n) as [u|u] eqn:Hu.
  - rewrite digits_value_uint. exact E.
  - exfalso. destruct n as [|p|p]; [discriminate Hu.. | lia].
Qed.

Lemma unorm_canonical (s : string) :
  canonical s = true -> unorm (uint_of_digits s) = uint_of_digits s.
Proof.
  unfold canonical, Num.nonempty_digits.
  intros [[Hne Hd]%andb_prop Hc]%andb_prop.
  destruct s as [|c s]; [done |]. clear Hne. simpl in Hd.
  apply andb_prop in Hd as [Hc0 Hd].
  destruct (is_digit_cases c Hc0) as [-> | [-> | [-> | [-> | [-> | [-> | [-> | [-> | [-> | ->]]]]]]]]];
    try done.
  by destruct s.
Qed.

(** Writing the number that a canonical text denotes gives the text
    back: [str(int(s)) = s]. *)
Lemma str_of_int_digits_value (s : string) :
  canonical s = true -> str_of_int (Num.digits_value 0 s) = s.
Proof.
  intros Hc.
  assert (Hd : all is_digit s = true).
  { unfold canonical, Num.nonempty_digits in Hc.
    by apply andb_prop in Hc as [[_ ?]%andb_prop _]. }
  rewrite <- (uint_digits_of_digits s Hd) at 1.
  rewrite digits_value_uint. unfold str_of_int.
  change (Z.of_uint (uint_of_digits s)) with (Z.of_int (Decimal.Pos (uint_of_digits s))).
  rewrite DecimalZ.to_of. cbn [norm].
  rewrite unorm_canonical by done. by rewrite uint_digits_of_digits.
Qed.

(** *** Integers as floats *)

(** An integer below 2^53 is a float, and [int] gives it back. *)
Lemma int_of_round_ratio (n : Z) :
  0 <= n < 2 ^ 53 -> Num.int_of_float (Num.round_ratio n 1) = Ok n.
Proof.
  intros [Hn0 Hn]. unfold Num.round_ratio.
  destruct (Z.eqb_spec n 0) as [-> | Hne]; [done |].
  assert (Hpos : 0 < n) by lia.
  pose proof (Z.log2_spec n Hpos) as [Hlo Hhi].
  pose proof (Z.log2_nonneg n) as HL0.
  assert (HL : Z.log2 n < 53) by (apply Z.log2_lt_pow2; lia).
  assert (Hlg : Num.log2_ratio n 1 = Z.log2 n).
  { unfold Num.log2_ratio. change (Z.log2 1) with 0. rewrite Z.sub_0_r.
    destruct (Z.leb_spec 0 (Z.log2 n)) as [_ | ?]; [| lia].
    destruct (Z.leb_spec (1 * 2 ^ Z.log2 n) n) as [_ | ?]; [done | lia]. }
  rewrite Hlg. set (L := Z.log2 n) in *.
  replace (Z.max (L - 52) (-1074)) with (L - 52) by lia.
  assert (H53 : 2 ^ 53 < 2 ^ 1024) by (apply Z.pow_lt_mono_r; lia).
  destruct (Z.leb_spec 0 (L - 52)) as [He | He].
  - assert (L = 52) as HL52 by lia. rewrite HL52. 
    change (52 - 52) with 0. change (Z.max 0 0) with 0.
    change (2 ^ 0) with 1. rewrite !Z.mul_1_r, Z.div_1_r, Z.mod_1_r.
    change (2 * 0 ?= 1) with Lt. cbv iota.
    destruct (Z.leb_spec (2 ^ 1024) n) as [? | _]; [lia |].
    simpl. f_equal. lia.
  - rewrite Z.div_1_r, Z.mod_1_r. change (2 * 0 ?= 1) with Lt. cbv iota.
    replace (Z.max (L - 52) 0) with 0 by lia.
    change (2 ^ 0) with 1. rewrite Z.mul_1_r.
    assert (Hm : n * 2 ^ (- (L - 52)) < 2 ^ 53).
    { replace (2 ^ 53) with (2 ^ (L + 1) * 2 ^ (- (L - 52))).
      - apply Z.mul_lt_mono_pos_r; [apply Z.pow_pos_nonneg; lia | done].
      - rewrite <- Z.pow_add_r by lia. f_equal. lia. }
    destruct (Z.leb_spec (2 ^ 1024) (n * 2 ^ (- (L - 52)))) as [? | _]; [lia |].
    cbn [Num.int_of_float].
    destruct (Z.leb_spec 0 (L - 52)) as [? | _]; [lia |].
    f_equal. apply Z.div_mul. apply Z.pow_nonzero; lia.
Qed.

Lemma digits_value_nonneg (s : string) :
  all is_digit s = true -> 0 <= Num.digits_value 0 s.
Proof.
  intros Hd. rewrite <- (uint_digits_of_digits s Hd), digits_value_uint.
  unfold Z.of_uint. lia.
Qed.

(** [int(float(s))] is the integer that the digits [s] denote, below
    2^53. *)
Lemma int_float_integer (s : string) :
  Num.nonempty_digits s = true -> Num.digits_value 0 s < 2 ^ 53 ->
  int_float s = Ok (Num.digits_value 0 s).
Proof.
  intros Hs Hn. unfold int_float, Num.float_of_str.
  assert (Hd : all is_digit s = true).
  { unfold Num.nonempty_digits in Hs. by apply andb_prop in Hs as [_ ?]. }
  pose proof (split_point_digits s "" Hd) as E.
  rewrite app_nil_r in E. simpl in E. rewrite app_nil_r in E.
  rewrite E, Hs. cbn [mbind result_bind].
  apply int_of_round_ratio. split; [by apply digits_value_nonneg | done].
Qed.

(** X12: for a size written as an integer below 2^53, the merged
    description is the integer without zeros in front followed by g when
    the unit is g and the integer is greater than 1, and the size and the
    unit as they are otherwise; so a size written as Python writes
    integers is never changed. *)
Theorem integer_size_description (size unit : string) :
  Num.nonempty_digits size = true -> Num.digits_value 0 size < 2 ^ 53 ->
  serving_description size unit =
    Ok (if String.eqb unit "g" && (1 <? Num.digits_value 0 size)
        then str_of_int (Num.digits_value 0 size) +:+ "g"
        else size +:+ unit) /\
  (canonical size = true -> serving_description size unit = Ok (size +:+ unit)).
Proof.
  intros Hs Hn.
  assert (E : serving_description size unit =
    Ok (if String.eqb unit "g" && (1 <? Num.digits_value 0 size)
        then str_of_int (Num.digits_value 0 size) +:+ "g"
        else size +:+ unit)).
  { unfold serving_description. rewrite (int_float_integer size Hs Hn).
    destruct (String.eqb_spec unit "g") as [-> | Hu]; simpl; [| done].
    by destruct (1 <? Num.digits_value 0 size). }
  split; [exact E |]. intros Hc. rewrite E.
  rewrite (str_of_int_digits_value size Hc).
  destruct (String.eqb_spec unit "g") as [-> | Hu]; simpl; [| done].
  by destruct (1 <? Num.digits_value 0 size).
Qed.

Lemma integer_size_description_witness :
  serving_description "250" "g" = Ok "250g" /\
  (canonical "250" = true -> serving_description "250" "g" = Ok "250g").
Proof.
  apply (integer_size_description "250" "g"); [reflexivity |].
  vm_compute. reflexivity.
Defined.


(** *** Sizes within the range of [float] *)

Lemma digit_value_range (c : ascii) :
  is_digit c = true -> 0 <= Num.digit_value c <= 9.
Proof.
  intros Hc.
  destruct (is_digit_cases c Hc) as [-> | [-> | [-> | [-> | [-> | [-> | [-> | [-> | [-> | ->]]]]]]]]];
    vm_compute; split; discriminate.
Qed.

(** The digits read after [acc] give a number between [acc] and [acc + 1]
    times the power of ten of their length. *)
Lemma digits_value_range (s : string) :
  all is_digit s = true ->
  forall acc, 0 <= acc ->
    acc * 10 ^ Z.of_nat (String.length s) <= Num.digits_value acc s
    < (acc + 1) * 10 ^ Z.of_nat (String.length s).
Proof.
  induction s as [|c s IH]; intros Hd acc Hacc.
  - simpl. lia.
  - simpl in Hd. apply andb_prop in Hd as [Hc Hs].
    pose proof (digit_value_range c Hc) as Hv.
    cbn [Num.digits_value String.length].
    rewrite Nat2Z.inj_succ, Z.pow_succ_r by lia.
    specialize (IH Hs (10 * acc + Num.digit_value c) ltac:(lia)).
    set (P := 10 ^ Z.of_nat (String.length s)) in *.
    assert (0 < P) by (apply Z.pow_pos_nonneg; lia).
    nia.
Qed.

Lemma log2_ratio_spec (n d : Z) :
  0 < n -> 0 < d ->
  (Num.log2_ratio n d = Z.log2 n - Z.log2 d \/
   Num.log2_ratio n d = Z.log2 n - Z.log2 d - 1) /\
  (0 <= Num.log2_ratio n d -> d * 2 ^ Num.log2_ratio n d <= n).
Proof.
  intros Hn Hd. unfold Num.log2_ratio.
  pose proof (Z.log2_spec n Hn) as [Ha1 Ha2].
  pose proof (Z.log2_spec d Hd) as [Hb1 Hb2].
  pose proof (Z.log2_nonneg n). pose proof (Z.log2_nonneg d).
  set (a := Z.log2 n) in *. set (b := Z.log2 d) in *.
  destruct (Z.leb_spec 0 (a - b)) as [Hl | Hl].
  - destruct (Z.leb_spec (d * 2 ^ (a - b)) n) as [Hr | Hr].
    + split; [by left | done].
    + split; [by right |]. intros Hl1.
      assert (E : 2 ^ Z.succ b * 2 ^ (a - b - 1) = 2 ^ a).
      { rewrite <- Z.pow_add_r by lia. f_equal. lia. }
      assert (0 < 2 ^ (a - b - 1)) by (apply Z.pow_pos_nonneg; lia).
      nia.
  - destruct (d <=? n * 2 ^ (- (a - b))); split; auto; lia.
Qed.

(** A ratio below 10^308 is within the range of [float]. *)
Lemma round_ratio_finite (n d : Z) :
  0 <= n -> 0 < d -> n < 10 ^ 308 * d ->
  Num.round_ratio n d <> Num.Infinity.
Proof.
  intros Hn0 Hd Hn. unfold Num.round_ratio.
  destruct (Z.eqb_spec n 0) as [-> | Hne]; [done |].
  assert (Hpos : 0 < n) by lia.
  destruct (log2_ratio_spec n d Hpos Hd) as [Hlg Hlow].
  pose proof (Z.log2_spec n Hpos) as [Ha1 Ha2].
  pose proof (Z.log2_spec d Hd) as [Hb1 Hb2].
  pose proof (Z.log2_nonneg n). pose proof (Z.log2_nonneg d).
  set (lg := Num.log2_ratio n d) in *.
  set (a := Z.log2 n) in *. set (b := Z.log2 d) in *.
  assert (HK1 : 2 ^ 54 < 2 ^ 1024) by (apply Z.pow_lt_mono_r; lia).
  assert (HK2 : 10 ^ 308 * (2 ^ 52 + 1) < 2 ^ 1024 * 2 ^ 52)
    by (apply Z.ltb_lt; vm_compute; reflexivity).
  remember (2 ^ 1024) as K eqn:HK. remember (10 ^ 308) as B eqn:HB.
  clear HK HB.
  set (e := Z.max (lg - 52) (-1074)).
  destruct (Z.leb_spec 0 e) as [He | He].
  - assert (Ee : e = lg - 52) by lia.
    assert (Hp : 0 < 2 ^ e) by (apply Z.pow_pos_nonneg; lia).
    assert (Elg : 2 ^ lg = 2 ^ e * 2 ^ 52).
    { rewrite <- Z.pow_add_r by lia. f_equal. lia. }
    specialize (Hlow ltac:(lia)).
    assert (Hd' : 0 < d * 2 ^ e) by nia.
    pose proof (Z.mul_div_le n (d * 2 ^ e) Hd') as Hq.
    assert (Hq0 : 0 <= n / (d * 2 ^ e)) by (apply Z.div_pos; lia).
    set (q := n / (d * 2 ^ e)) in *.
    replace (Z.max e 0) with e by lia.
    assert (Hm : forall m, m <= q + 1 -> (K <=? m * 2 ^ e) = false).
    { intros m Hm. apply Z.leb_gt.
      assert (q * 2 ^ e < B) by nia.
      assert (2 ^ lg < B) by nia.
      nia. }
    destruct (2 * (n mod (d * 2 ^ e)) ?= d * 2 ^ e);
      [destruct (Z.even q) | |]; rewrite Hm by lia; done.
  - replace (Z.max e 0) with 0 by lia. change (2 ^ 0) with 1.
    assert (Hp : 0 < 2 ^ (- e)) by (apply Z.pow_pos_nonneg; lia).
    assert (Hn' : n * 2 ^ (- e) < 2 ^ 54 * d).
    { assert (Hle : - e <= 53 - (a - b)) by lia.
      assert (2 ^ (- e) <= 2 ^ (53 - (a - b)))
        by (apply Z.pow_le_mono_r; lia).
      assert (E : 2 ^ Z.succ a * 2 ^ (53 - (a - b)) = 2 ^ 54 * 2 ^ b).
      { rewrite <- !Z.pow_add_r by lia. f_equal. lia. }
      assert (0 < 2 ^ (53 - (a - b))) by (apply Z.pow_pos_nonneg; lia).
      nia. }
    pose proof (Z.mul_div_le (n * 2 ^ (- e)) d Hd) as Hq.
    set (q := n * 2 ^ (- e) / d) in *.
    assert (Hm : forall m, m <= q + 1 -> (K <=? m * 1) = false).
    { intros m Hm. apply Z.leb_gt. assert (q < 2 ^ 54) by nia. lia. }
    destruct (2 * ((n * 2 ^ (- e)) mod d) ?= d);
      [destruct (Z.even q) | |]; rewrite Hm by lia; done.
Qed.








(** *** Sizes with a fraction *)

Lemma log2_ratio_sign (n d : Z) :
  0 < n -> 0 < d -> (d <= n -> 0 <= Num.log2_ratio n d).
Proof.
  intros Hn Hd Hle. unfold Num.log2_ratio.
  pose proof (Z.log2_le_mono d n Hle).
  destruct (Z.leb_spec 0 (Z.log2 n - Z.log2 d)) as [Hl | Hl]; [| lia].
  destruct (Z.leb_spec (d * 2 ^ (Z.log2 n - Z.log2 d)) n) as [Hr | Hr];
    [done |].
  destruct (Z.eq_dec (Z.log2 n - Z.log2 d) 0) as [E | E]; [| lia].
  rewrite E in Hr. simpl in Hr. lia.
Qed.

(** [int(float(n / d))] for a ratio between the integers [i] and [i + 1]
    below 2^53: the rounding of [float] gives a number between the two, and
    [int] drops what is left of the fraction. *)
Lemma int_of_round_ratio_between (n d i : Z) :
  0 < d -> 0 <= i < 2 ^ 53 -> i * d <= n < (i + 1) * d ->
  exists k, Num.int_of_float (Num.round_ratio n d) = Ok k /\ i <= k <= i + 1.
Proof.
  intros Hd Hi Hn.
  assert (HB : 2 ^ 53 <= 10 ^ 308) by (apply Z.leb_le; vm_compute; reflexivity).
  assert (Hfin : Num.round_ratio n d <> Num.Infinity).
  { apply round_ratio_finite; [nia | done |].
    remember (2 ^ 53) as A eqn:HA. remember (10 ^ 308) as B eqn:HB'.
    clear HA HB'. nia. }
  clear HB. revert Hfin. unfold Num.round_ratio.
  destruct (Z.eqb_spec n 0) as [-> | Hne].
  { intros _. exists 0. split; [done | nia]. }
  assert (Hpos : 0 < n) by nia.
  destruct (log2_ratio_spec n d Hpos Hd) as [_ Hlow].
  pose proof (log2_ratio_sign n d Hpos Hd) as Hsign.
  set (lg := Num.log2_ratio n d) in *.
  assert (Hlg : lg <= 52).
  { destruct (Z.le_gt_cases lg 52) as [? | Hgt]; [done |]. exfalso.
    specialize (Hlow ltac:(lia)).
    assert (2 ^ 53 <= 2 ^ lg) by (apply Z.pow_le_mono_r; lia).
    remember (2 ^ 53) as A. nia. }
  remember (2 ^ 1024) as K eqn:HK. clear HK.
  set (e := Z.max (lg - 52) (-1074)).
  destruct (Z.leb_spec 0 e) as [He | He].
  - assert (Ee : e = 0) by lia. rewrite Ee. simpl (2 ^ 0). simpl (Z.max 0 0).
    rewrite !Z.mul_1_r.
    assert (Eq : n / d = i).
    { symmetry. apply (Z.div_unique_pos n d i (n - i * d)); lia. }
    rewrite Eq.
    destruct (2 * (n mod d) ?= d); [destruct (Z.even i) | |];
      (destruct (K <=? _); intros Hfin; [done |]);
      cbn [Num.int_of_float Z.leb Z.compare]; rewrite Z.mul_1_r;
      eexists; (split; [reflexivity | lia]).
  - replace (Z.max e 0) with 0 by lia. change (2 ^ 0) with 1.
    assert (Hs : 0 < 2 ^ (- e)) by (apply Z.pow_pos_nonneg; lia).
    set (s := 2 ^ (- e)) in *.
    pose proof (Z.mul_div_le (n * s) d Hd) as Hq1.
    pose proof (Z.mul_succ_div_gt (n * s) d Hd) as Hq2.
    set (q := n * s / d) in *.
    assert (Hq : i * s <= q < (i + 1) * s) by nia.
    assert (Hm : forall m, q <= m <= q + 1 ->
              (if K <=? m * 1 then Num.Infinity else Num.Finite m e)
                <> Num.Infinity ->
              exists k, Num.int_of_float
                (if K <=? m * 1 then Num.Infinity else Num.Finite m e) = Ok k
                /\ i <= k <= i + 1).
    { intros m Hm. destruct (K <=? m * 1); intros Hfin; [done |].
      cbn [Num.int_of_float].
      destruct (Z.leb_spec 0 e) as [? | _]; [lia |]. fold s.
      eexists. split; [reflexivity |]. split.
      - apply Z.div_le_lower_bound; nia.
      - apply Z.div_le_upper_bound; nia. }
    destruct (2 * ((n * s) mod d) ?= d); [destruct (Z.even q) | |];
      apply Hm; lia.
Qed.

Lemma digits_value_app (a b : string) (acc : Z) :
  Num.digits_value acc (a +:+ b) = Num.digits_value (Num.digits_value acc a) b.
Proof. revert acc. induction a as [|c a IH]; intros acc; simpl; [done | apply IH]. Qed.

(** [int(float(t))] is the integer part of the numeral [t], or one more
    where [float] rounds up to the next integer. *)
Lemma int_float_numeral (t : string) :
  number_ok t = true ->
  Num.digits_value 0 (Num.split_point t).1 < 2 ^ 53 ->
  exists k, int_float t = Ok k /\
    (k = Num.digits_value 0 (Num.split_point t).1 \/
     k = Num.digits_value 0 (Num.split_point t).1 + 1).
Proof.
  unfold number_ok, int_float, Num.float_of_str.
  destruct (Num.split_point t) as [i [f|]]; simpl; intros Hok Hlt.
  - rewrite Hok. apply andb_prop in Hok as [Hi Hf].
    unfold Num.nonempty_digits in Hi, Hf.
    apply andb_prop in Hi as [_ Hi]. apply andb_prop in Hf as [_ Hf].
    pose proof (digits_value_nonneg i Hi) as H0.
    pose proof (digits_value_range f Hf _ H0) as Hr.
    rewrite <- digits_value_app in Hr.
    assert (Hd : 0 < 10 ^ Z.of_nat (String.length f))
      by (apply Z.pow_pos_nonneg; lia).
    destruct (int_of_round_ratio_between _ _ _ Hd (conj H0 Hlt) Hr)
      as (k & Hk & Hik).
    exists k. split; [exact Hk | lia].
  - rewrite Hok. exists (Num.digits_value 0 i). split; [| by left].
    unfold Num.nonempty_digits in Hok. apply andb_prop in Hok as [_ Hi].
    apply int_of_round_ratio. split; [by apply digits_value_nonneg | done].
Qed.

(** [int(float(n / d))] for a ratio between the integers [i] and [i + 1],
    when [(i + 1) * d] is at most 2^53: the spacing of the floats below
    [i + 1] is then finer than [1 / d], so that [float] does not round
    the ratio up to [i + 1], and [int] gives [i]. *)
Lemma int_of_round_ratio_floor (n d i : Z) :
  0 < d -> 0 <= i -> i * d <= n < (i + 1) * d -> (i + 1) * d <= 2 ^ 53 ->
  Num.int_of_float (Num.round_ratio n d) = Ok i.
Proof.
  intros Hd Hi Hn Hb.
  assert (HB : 2 ^ 53 <= 10 ^ 308) by (apply Z.leb_le; vm_compute; reflexivity).
  assert (Hfin : Num.round_ratio n d <> Num.Infinity).
  { apply round_ratio_finite; [nia | done |].
    remember (2 ^ 53) as A eqn:HA. remember (10 ^ 308) as B eqn:HB'.
    clear HA HB'. nia. }
  clear HB. revert Hfin. unfold Num.round_ratio.
  destruct (Z.eqb_spec n 0) as [-> | Hne].
  { intros _. cbn [Num.int_of_float Z.leb Z.compare]. f_equal. nia. }
  assert (Hpos : 0 < n) by nia.
  destruct (log2_ratio_spec n d Hpos Hd) as [_ Hlow].
  pose proof (log2_ratio_sign n d Hpos Hd) as Hsign.
  set (lg := Num.log2_ratio n d) in *.
  assert (Hlg : lg <= 52).
  { destruct (Z.le_gt_cases lg 52) as [? | Hgt]; [done |]. exfalso.
    specialize (Hlow ltac:(lia)).
    assert (2 ^ 53 <= 2 ^ lg) by (apply Z.pow_le_mono_r; lia).
    remember (2 ^ 53) as A eqn:HA. clear HA. nia. }
  remember (2 ^ 1024) as K eqn:HK. clear HK.
  set (e := Z.max (lg - 52) (-1074)).
  destruct (Z.leb_spec 0 e) as [He | He].
  - assert (Ee : e = 0) by lia. rewrite Ee. simpl (2 ^ 0). simpl (Z.max 0 0).
    rewrite !Z.mul_1_r.
    assert (Elg : lg = 52) by lia. specialize (Hlow ltac:(lia)).
    rewrite Elg in Hlow.
    assert (Ed : d = 1).
    { assert (E53 : 2 ^ 53 = 2 * 2 ^ 52) by reflexivity.
      remember (2 ^ 52) as A eqn:HA. remember (2 ^ 53) as A2 eqn:HA2.
      assert (0 < A) by (subst A; reflexivity).
      clear HA HA2. nia. }
    subst d. rewrite Z.div_1_r, Z.mod_1_r.
    change (2 * 0 ?= 1) with Lt. cbv beta iota.
    assert (n = i) as -> by lia.
    destruct (K <=? i); intros Hfin; [done |].
    cbn [Num.int_of_float Z.leb Z.compare]. f_equal. simpl (2 ^ 0). lia.
  - replace (Z.max e 0) with 0 by lia. change (2 ^ 0) with 1.
    assert (Hs : 0 < 2 ^ (- e)) by (apply Z.pow_pos_nonneg; lia).
    assert (Hds : d < 2 * 2 ^ (- e)).
    { destruct (Z.le_gt_cases 0 lg) as [Hl0 | Hl0].
      - specialize (Hlow Hl0).
        assert (Ee : - e = 52 - lg) by lia. rewrite Ee.
        assert (E53 : 2 * 2 ^ (52 - lg) * 2 ^ lg = 2 ^ 53).
        { rewrite <- Z.mul_assoc, <- Z.pow_add_r by lia.
          replace (52 - lg + lg) with 52 by lia. reflexivity. }
        assert (0 < 2 ^ lg) by (apply Z.pow_pos_nonneg; lia).
        remember (2 ^ 53) as A eqn:HA. clear HA.
        set (s := 2 ^ (52 - lg)) in *. set (P := 2 ^ lg) in *. nia.
      - assert (2 ^ 53 <= 2 ^ (- e)) by (apply Z.pow_le_mono_r; lia).
        remember (2 ^ 53) as A eqn:HA. clear HA. nia. }
    set (s := 2 ^ (- e)) in *.
    pose proof (Z.mul_div_le (n * s) d Hd) as Hq1.
    pose proof (Z.mul_succ_div_gt (n * s) d Hd) as Hq2.
    pose proof (Z.mod_eq (n * s) d ltac:(lia)) as Hr.
    set (q := n * s / d) in *. set (r := (n * s) mod d) in *.
    assert (Hq : i * s <= q < (i + 1) * s) by nia.
    assert (Hm : forall m, i * s <= m < (i + 1) * s ->
              (if K <=? m * 1 then Num.Infinity else Num.Finite m e)
                <> Num.Infinity ->
              Num.int_of_float
                (if K <=? m * 1 then Num.Infinity else Num.Finite m e) = Ok i).
    { intros m Hm. destruct (K <=? m * 1); intros Hfin; [done |].
      cbn [Num.int_of_float].
      destruct (Z.leb_spec 0 e) as [? | _]; [lia |]. fold s. f_equal.
      symmetry. apply (Z.div_unique_pos m s i (m - i * s)); lia. }
    assert (Hup : d <= 2 * r -> q + 1 < (i + 1) * s).
    { intros H2r.
      destruct (Z.lt_ge_cases (q + 1) ((i + 1) * s)) as [? | Hge]; [done |].
      exfalso. assert (Eq : q = (i + 1) * s - 1) by lia.
      set (g := (i + 1) * d - n).
      assert (Hg : 1 <= g) by (unfold g; lia).
      assert (Er : r = d - s * g).
      { rewrite Hr, Eq. unfold g. ring. }
      assert (s <= s * g) by nia. lia. }
    destruct (Z.compare_spec (2 * r) d) as [E | Hlt | Hgt];
      [destruct (Z.even q) | |]; apply Hm; lia.
Qed.

(** [int(float(t))] for a numeral of few digits is its integer part. *)
Lemma int_float_floor (t : string) :
  number_ok t = true ->
  (integer_part t + 1) * 10 ^ Z.of_nat (fraction_digits t) <= 2 ^ 53 ->
  int_float t = Ok (integer_part t).
Proof.
  unfold number_ok, int_float, Num.float_of_str, integer_part, fraction_digits.
  destruct (Num.split_point t) as [i [f|]]; simpl; intros Hok Hlt.
  - rewrite Hok. apply andb_prop in Hok as [Hi Hf].
    unfold Num.nonempty_digits in Hi, Hf.
    apply andb_prop in Hi as [_ Hi]. apply andb_prop in Hf as [_ Hf].
    pose proof (digits_value_nonneg i Hi) as H0.
    pose proof (digits_value_range f Hf _ H0) as Hr.
    rewrite <- digits_value_app in Hr.
    assert (Hd : 0 < 10 ^ Z.of_nat (String.length f))
      by (apply Z.pow_pos_nonneg; lia).
    cbn [mbind result_bind].
    by apply int_of_round_ratio_floor.
  - rewrite Hok. unfold Num.nonempty_digits in Hok.
    apply andb_prop in Hok as [_ Hi].
    pose proof (digits_value_nonneg i Hi) as H0.
    cbn [mbind result_bind].
    apply int_of_round_ratio_floor; [lia | done | lia |].
    change (10 ^ Z.of_nat 0) with 1 in Hlt. lia.
Qed.

(** X14: for a size in grams of few digits (the integer part plus one,
    times ten to the number of digits after the point, is at most 2^53:
    every size of at most fifteen digits), [int(float(size))] is the
    integer part of the size.  So the fraction is lost when the integer
    part is greater than 1: the merged description is the integer part
    followed by g (2.75 and g give 2g); otherwise it is the size as it is
    written followed by g. *)
Theorem gram_fraction_dropped (size : string) :
  number_ok size = true ->
  (integer_part size + 1) * 10 ^ Z.of_nat (fraction_digits size) <= 2 ^ 53 ->
  int_float size = Ok (integer_part size) /\
  serving_description size "g" =
    Ok (if 1 <? integer_part size
        then str_of_int (integer_part size) +:+ "g"
        else size +:+ "g").
Proof.
  intros Hok Hlt. pose proof (int_float_floor size Hok Hlt) as Hk.
  split; [exact Hk |].
  unfold serving_description. rewrite Hk. simpl.
  by destruct (1 <? integer_part size).
Qed.

Lemma gram_fraction_dropped_witness :
  int_float "2.75" = Ok 2 /\ serving_description "2.75" "g" = Ok "2g".
Proof.
  apply (gram_fraction_dropped "2.75"); [reflexivity |].
  vm_compute. discriminate.
Defined.

End SizeFacts.
